(** * DivyaDrishti web interface: detection engine, video handler, tracker

    A shallow embedding of the JavaScript sources of the web interface
    (detection-engine.js: class [DetectionEngine]; video-handler.js:
    class [VideoHandler]) and of the ByteTrack configuration
    (bytetrack.yaml), with the properties stated about them.

    Conventions of the embedding.
    - JavaScript numbers that hold scores and pixel coordinates are
      rationals ([Q]); every finite double is a rational and [>=] on
      finite doubles is the order of [Q].  Arithmetic on them is exact
      here (no rounding).
    - JavaScript numbers that hold counters are integers ([Z]); the one
      place where a counter is incremented uses [JS.incr], which is the
      double-precision [x + 1] (it saturates at 2^53).
    - [Math.random()], [Date.now()] and [new Date()] read the outside
      world: they are draws from a [World] that the state carries.
    - A method is a computation in the state monad [M] over [St]: the
      engine object, the world, the trace of console lines and DOM events
      it has emitted, and the callbacks it has scheduled. *)

From Stdlib Require Import ZArith QArith Qround Ascii String List Sorted Lia Lqa DecimalString.
From stdpp Require Import gmap strings list.

Open Scope Z_scope.

(** ** JavaScript primitives *)

Module JS.

(** [Number.MAX_SAFE_INTEGER + 1]: above it [x + 1] is no longer exact. *)
Definition two53 : Z := 2 ^ 53.

(** [x + 1] on a double holding an integer [0 <= x <= 2^53]: exact below
    2^53, and [2^53 + 1] rounds back to [2^53]. *)
Definition incr (x : Z) : Z := if x <? two53 then x + 1 else x.

(** [Math.floor]. *)
Definition floor (q : Q) : Z := Qfloor q.

(** [a >= b] and [a > b] on finite numbers. *)
Definition ge (a b : Q) : bool := Qle_bool b a.
Definition gt (a b : Q) : bool := negb (Qle_bool a b).

(** Number to string, for integers below 1e21 (decimal digits). *)
Definition toString (n : Z) : string := NilZero.string_of_int (Z.to_int n).

(** The result of reading [obj[key]] on an object literal: an own
    property, a member inherited from [Object.prototype] (a function, or
    the prototype object itself for [__proto__]: truthy, and without any
    of the literal's fields), or [undefined]. *)
Inductive Prop_ (V : Type) : Type :=
| Own (v : V)
| Inherited (name : string)
| Undefined.
Arguments Own {V} v.
Arguments Inherited {V} name.
Arguments Undefined {V}.

Definition prototype_members : list string :=
  [ "constructor"; "hasOwnProperty"; "isPrototypeOf";
    "propertyIsEnumerable"; "toLocaleString"; "toString"; "valueOf";
    "__proto__"; "__defineGetter__"; "__defineSetter__";
    "__lookupGetter__"; "__lookupSetter__" ]%string.

Fixpoint own_property {V} (obj : list (string * V)) (key : string) : option V :=
  match obj with
  | [] => None
  | (k, v) :: rest => if String.eqb k key then Some v else own_property rest key
  end.

(** [obj[key]] for an object literal [obj]. *)
Definition get {V} (obj : list (string * V)) (key : string) : Prop_ V :=
  match own_property obj key with
  | Some v => Own v
  | None =>
      if existsb (String.eqb key) prototype_members
      then Inherited key else Undefined
  end.

(** [p || q] when every own value is truthy. *)
Definition or {V} (p q : Prop_ V) : Prop_ V :=
  match p with
  | Undefined => q
  | _ => p
  end.

(** [arr[i]] for a string array, printed: ["undefined"] out of range. *)
Definition index (arr : list string) (i : Z) : string :=
  if i <? 0 then "undefined"
  else nth (Z.to_nat i) arr "undefined"%string.

(** [arr.slice(-n)] for [n > 0]: the last [n] elements, all of them when
    the array is shorter. *)
Definition slice_last {A} (n : nat) (arr : list A) : list A :=
  skipn (length arr - n) arr.

End JS.

(** ** State-passing computations *)

(** A method of an object with state [S] that returns an [A]. *)
Definition State (S A : Type) : Type := S -> A * S.

#[global] Instance State_ret {S} : MRet (State S) := fun A a s => (a, s).
#[global] Instance State_bind {S} : MBind (State S) :=
  fun A B f m s => match m s with (a, s') => f a s' end.

Definition exec {S A} (m : State S A) (s : S) : S := snd (m s).
Definition eval {S A} (m : State S A) (s : S) : A := fst (m s).

(** [arr.forEach(f)]. *)
Fixpoint forEach {S A} (l : list A) (f : A -> State S unit) : State S unit :=
  match l with
  | [] => mret tt
  | a :: rest => _ ← f a; forEach rest f
  end.

(** [steps R m]: whatever the state, running [m] moves it along [R]. *)
Definition steps {S A} (R : S -> S -> Prop) (m : State S A) : Prop :=
  forall s, R s (exec m s).

(** [keeps I]: the relation of a step that maintains the invariant [I]. *)
Definition keeps {S} (I : S -> Prop) : S -> S -> Prop :=
  fun s s' => I s -> I s'.

(** [respects E m]: from [E]-related states, [m] returns equal results and
    leaves [E]-related states. *)
Definition respects {S A} (E : S -> S -> Prop) (m : State S A) : Prop :=
  forall s1 s2, E s1 s2 ->
    eval m s1 = eval m s2 /\ E (exec m s1) (exec m s2).

(** ** The detection engine (detection-engine.js) *)

Module Engine.

Record BBox : Type := mkBBox {
  x : Q; y : Q; width : Q; height : Q
}.

(** [timestamp] is first [Date.now()] (milliseconds) and, in the history
    copy, [new Date().toISOString()]: the same instant as a string. *)
Inductive Timestamp : Type :=
| Millis (t : Z)
| IsoString (t : Z).

(** The object literal built by [generateDetection]; [id: null] is
    [None]. *)
Record Detection : Type := mkDetection {
  class : string;
  confidence : Q;
  bbox : BBox;
  timestamp : Timestamp;
  id : option Z
}.

Record ModelConfig : Type := mkModelConfig {
  classes : list string;
  accuracy : Q;
  speed : string;
  maxDetections : Z
}.

(** The fields of [this] that the methods below read or write.
    [performanceMetrics] and [lastFrameTime] (wall-clock measurements)
    are left out; [detectedObjects] is the [Map] keyed by string. *)
Record Engine : Type := mkEngine {
  isActive : bool;
  trackingEnabled : bool;
  currentModel : string;
  threshold : Q;                      (* this.confidence *)
  detectedObjects : gmap string Detection;
  trackingId : Z;
  detectionHistory : list Detection
}.

Record AlertData : Type := mkAlert {
  alert_class : string;
  alert_confidence : Q;
  alert_timestamp : Z;
  alert_severity : JS.Prop_ string
}.

Record LogEntry : Type := mkLogEntry {
  log_time : Z;
  log_class : string;
  log_confidence : Q;
  log_id : option Z;
  log_model : string
}.

Inductive DomEvent : Type :=
| newDetection (d : Detection)
| securityAlert (a : AlertData)
| performanceUpdate (detectionCount : nat)
| clearDetections
| modelLoading (loading : bool)
| modelPerformanceUpdate (model : string) (config : JS.Prop_ ModelConfig).

Inductive Effect : Type :=
| Dispatch (ev : DomEvent)                 (* document.dispatchEvent *)
| LogDetection (entry : LogEntry)          (* console.log('Detection:', _) *)
| LogStarted
| LogStopped
| LogDestroyed
| LogSwitched (model : string)
| LogConfidence (percent : Q)
| LogTracking (enabled : bool).

(** What the page supplies: the results of [Math.random()], the clock,
    and whether [window.videoHandler] is set. *)
Record World : Type := mkWorld {
  random : nat -> Q;
  rcur : nat;
  clock : nat -> Z;
  ccur : nat;
  videoHandler : bool
}.

(** [rafPending]: callbacks [() => this.startDetectionLoop()] handed to
    [requestAnimationFrame] and not yet run.  [timers]: the model names
    captured by the pending [setTimeout] callbacks of [setModel].
    [framesProcessed] is a ghost counter of the calls of [processFrame];
    no method reads it. *)
Record St : Type := mkSt {
  engine : Engine;
  world : World;
  effects : list Effect;
  rafPending : nat;
  timers : list string;
  framesProcessed : nat
}.

(** *** The state monad *)

Abbreviation M := (State St).

Definition this : M Engine := fun s => (engine s, s).

Definition update (f : Engine -> Engine) : M unit :=
  fun s => (tt, mkSt (f (engine s)) (world s) (effects s)
                     (rafPending s) (timers s) (framesProcessed s)).

Definition emit (e : Effect) : M unit :=
  fun s => (tt, mkSt (engine s) (world s) (effects s ++ [e])
                     (rafPending s) (timers s) (framesProcessed s)).

Definition with_world (w : World) (s : St) : St :=
  mkSt (engine s) w (effects s) (rafPending s) (timers s) (framesProcessed s).

Definition Math_random : M Q :=
  fun s => let w := world s in
           (random w (rcur w),
            with_world (mkWorld (random w) (S (rcur w)) (clock w) (ccur w)
                                (videoHandler w)) s).

Definition Date_now : M Z :=
  fun s => let w := world s in
           (clock w (ccur w),
            with_world (mkWorld (random w) (rcur w) (clock w) (S (ccur w))
                                (videoHandler w)) s).

Definition window_videoHandler : M bool :=
  fun s => (videoHandler (world s), s).

Definition requestAnimationFrame : M unit :=
  fun s => (tt, mkSt (engine s) (world s) (effects s)
                     (S (rafPending s)) (timers s) (framesProcessed s)).

Definition setTimeout (model : string) : M unit :=
  fun s => (tt, mkSt (engine s) (world s) (effects s)
                     (rafPending s) (timers s ++ [model]) (framesProcessed s)).

Definition count_frame : M unit :=
  fun s => (tt, mkSt (engine s) (world s) (effects s)
                     (rafPending s) (timers s) (S (framesProcessed s))).

(** *** Field assignments *)

Definition set_isActive (b : bool) (e : Engine) : Engine :=
  mkEngine b (trackingEnabled e) (currentModel e) (threshold e)
           (detectedObjects e) (trackingId e) (detectionHistory e).
Definition set_trackingEnabled (b : bool) (e : Engine) : Engine :=
  mkEngine (isActive e) b (currentModel e) (threshold e)
           (detectedObjects e) (trackingId e) (detectionHistory e).
Definition set_currentModel (m : string) (e : Engine) : Engine :=
  mkEngine (isActive e) (trackingEnabled e) m (threshold e)
           (detectedObjects e) (trackingId e) (detectionHistory e).
Definition set_threshold (c : Q) (e : Engine) : Engine :=
  mkEngine (isActive e) (trackingEnabled e) (currentModel e) c
           (detectedObjects e) (trackingId e) (detectionHistory e).
Definition set_detectedObjects (m : gmap string Detection) (e : Engine) : Engine :=
  mkEngine (isActive e) (trackingEnabled e) (currentModel e) (threshold e)
           m (trackingId e) (detectionHistory e).
Definition set_trackingId (n : Z) (e : Engine) : Engine :=
  mkEngine (isActive e) (trackingEnabled e) (currentModel e) (threshold e)
           (detectedObjects e) n (detectionHistory e).
Definition set_detectionHistory (h : list Detection) (e : Engine) : Engine :=
  mkEngine (isActive e) (trackingEnabled e) (currentModel e) (threshold e)
           (detectedObjects e) (trackingId e) h.

Definition set_id (i : option Z) (d : Detection) : Detection :=
  mkDetection (class d) (confidence d) (bbox d) (timestamp d) i.
Definition set_timestamp (t : Timestamp) (d : Detection) : Detection :=
  mkDetection (class d) (confidence d) (bbox d) t (id d).

(** *** constructor *)

Definition new_engine : Engine :=
  mkEngine false false "yolov11n" (75 # 100) ∅ 1 [].

(** *** getModelConfig *)

Definition configs : list (string * ModelConfig) :=
  [ ("yolov11n",
     mkModelConfig ["person"; "vehicle"] (94 # 100) "fast" 3);
    ("yolov11s",
     mkModelConfig ["person"; "vehicle"; "animal"] (96 # 100) "medium" 4);
    ("yolov11m",
     mkModelConfig ["person"; "vehicle"; "animal"; "object"] (98 # 100)
                   "slow" 5);
    ("foottrail",
     mkModelConfig ["person"; "unauthorized-trail"; "vegetation"; "structure"]
                   (92 # 100) "medium" 2) ]%string.

(** [return configs[modelName] || configs['yolov11n']]. *)
Definition getModelConfig (modelName : string) : JS.Prop_ ModelConfig :=
  JS.or (JS.get configs modelName) (JS.get configs "yolov11n").

(** *** generateBoundingBox *)

Definition generateBoundingBox : M BBox :=
  let canvasWidth : Q := 1280%Q in
  let canvasHeight : Q := 720%Q in
  r1 ← Math_random;
  let width := (r1 * 200 + 80)%Q in
  r2 ← Math_random;
  let height := (r2 * 300 + 120)%Q in
  r3 ← Math_random;
  let x := (r3 * (canvasWidth - width))%Q in
  r4 ← Math_random;
  let y := (r4 * (canvasHeight - height))%Q in
  mret (mkBBox x y width height).

(** *** getTrackingId *)

(** [return this.trackingId++] under [if (this.trackingEnabled)], else
    [return null]. *)
Definition getTrackingId (className : string) : M (option Z) :=
  e ← this;
  if trackingEnabled e then
    _ ← update (set_trackingId (JS.incr (trackingId e)));
    mret (Some (trackingId e))
  else mret None.

(** *** generateDetection *)

Definition generateDetection (config : ModelConfig) : M Detection :=
  r ← Math_random;
  let classIndex := JS.floor (r * inject_Z (Z.of_nat (length (classes config)))) in
  let className := JS.index (classes config) classIndex in
  rc ← Math_random;
  e ← this;
  let conf := (rc * (1 - threshold e) + threshold e)%Q in
  box ← generateBoundingBox;
  now ← Date_now;
  e' ← this;
  i ← (if trackingEnabled e' then getTrackingId className else mret None);
  mret (mkDetection className conf box (Millis now) i).

(** *** simulateDetections *)

(** The [for] loop: [n] calls of [generateDetection], pushed in order. *)
Fixpoint generateDetections (n : nat) (config : ModelConfig) : M (list Detection) :=
  match n with
  | O => mret []
  | S k =>
      d ← generateDetection config;
      ds ← generateDetections k config;
      mret (d :: ds)
  end.

(** [Math.floor(Math.random() * modelConfig.maxDetections) + 1] is [NaN]
    when [maxDetections] is [undefined] (an inherited member stands for
    the configuration); [i < NaN] is false and the loop body never runs.
    A number [n] runs the body [max n 0] times. *)
Definition simulateDetections : M (list Detection) :=
  e ← this;
  let modelConfig := getModelConfig (currentModel e) in
  r ← Math_random;
  if JS.gt r (8 # 10) then
    r' ← Math_random;
    match modelConfig with
    | JS.Own config =>
        let numDetections :=
          JS.floor (r' * inject_Z (maxDetections config)) + 1 in
        generateDetections (Z.to_nat numDetections) config
    | _ => mret []
    end
  else mret [].

(** *** storeDetection *)

(** [detection.id || Date.now()]: the clock is read only when the id is
    [null] or [0]. *)
Definition storeKey (detection : Detection) : M string :=
  suffix ← match id detection with
           | Some i => if i =? 0 then Date_now else mret i
           | None => Date_now
           end;
  mret (class detection +:+ "_" +:+ JS.toString suffix).

Definition storeDetection (detection : Detection) : M unit :=
  key ← storeKey detection;
  _ ← update (fun e => set_detectedObjects (<[key := detection]> (detectedObjects e)) e);
  now ← Date_now;
  _ ← update (fun e => set_detectionHistory
                         (detectionHistory e ++ [set_timestamp (IsoString now) detection]) e);
  e ← this;
  if (100 <? Z.of_nat (length (detectionHistory e)))
  then update (fun e => set_detectionHistory (tail (detectionHistory e)) e)
  else mret tt.

(** *** updateDetectionDisplay, logDetectionEvent, checkAlerts *)

Definition updateDetectionDisplay (detection : Detection) : M unit :=
  vh ← window_videoHandler;
  if (vh : bool) then emit (Dispatch (newDetection detection)) else mret tt.

Definition logDetectionEvent (detection : Detection) : M unit :=
  now ← Date_now;
  e ← this;
  emit (LogDetection (mkLogEntry now (class detection) (confidence detection)
                                 (id detection) (currentModel e))).

Definition getAlertSeverity (detection : Detection) : JS.Prop_ string :=
  let severityMap :=
    [ ("person", "high"); ("unauthorized-trail", "critical");
      ("vehicle", "medium"); ("animal", "low") ]%string in
  JS.or (JS.get severityMap (class detection)) (JS.Own "medium"%string).

Definition triggerAlert (detection : Detection) : M unit :=
  now ← Date_now;
  emit (Dispatch (securityAlert
                    (mkAlert (class detection) (confidence detection) now
                             (getAlertSeverity detection)))).

(** [if (alertConditions[detection.class])]: an own entry counts when it
    is [true], an inherited member always (it is an object). *)
Definition checkAlerts (detection : Detection) : M unit :=
  let alertConditions :=
    [ ("person", JS.gt (confidence detection) (8 # 10));
      ("unauthorized-trail", JS.gt (confidence detection) (7 # 10));
      ("vehicle", JS.gt (confidence detection) (85 # 100)) ]%string in
  match JS.get alertConditions (class detection) with
  | JS.Own true | JS.Inherited _ => triggerAlert detection
  | _ => mret tt
  end.

(** *** handleDetection *)

Definition handleDetection (detection : Detection) : M unit :=
  _ ← storeDetection detection;
  _ ← updateDetectionDisplay detection;
  _ ← logDetectionEvent detection;
  checkAlerts detection.

(** *** updatePerformanceMetrics *)

Definition updatePerformanceMetrics : M unit :=
  e ← this;
  emit (Dispatch (performanceUpdate (size (detectedObjects e)))).

(** *** processFrame *)

Definition processFrame : M unit :=
  _ ← count_frame;
  detections ← simulateDetections;
  _ ← forEach detections (fun detection =>
        e ← this;
        if JS.ge (confidence detection) (threshold e)
        then handleDetection detection
        else mret tt);
  updatePerformanceMetrics.

(** *** startDetectionLoop *)

Definition startDetectionLoop : M unit :=
  e ← this;
  if negb (isActive e) then mret tt
  else
    _ ← processFrame;
    requestAnimationFrame.

(** *** clearAllDetections, clearTrackingData *)

Definition clearAllDetections : M unit :=
  _ ← update (set_detectedObjects ∅);
  _ ← update (set_trackingId 1);
  emit (Dispatch clearDetections).

Definition clearTrackingData : M unit :=
  _ ← update (set_trackingId 1);
  update (fun e => set_detectedObjects (set_id None <$> detectedObjects e) e).

(** *** start, stop, setModel, setConfidence, enableTracking, destroy *)

Definition start : M unit :=
  _ ← update (set_isActive true);
  _ ← startDetectionLoop;
  emit LogStarted.

Definition stop : M unit :=
  _ ← update (set_isActive false);
  _ ← clearAllDetections;
  emit LogStopped.

Definition showModelLoading : M unit := emit (Dispatch (modelLoading true)).
Definition hideModelLoading : M unit := emit (Dispatch (modelLoading false)).

Definition updateModelPerformance (modelName : string) : M unit :=
  emit (Dispatch (modelPerformanceUpdate modelName (getModelConfig modelName))).

Definition setModel (modelName : string) : M unit :=
  _ ← update (set_currentModel modelName);
  _ ← emit (LogSwitched modelName);
  _ ← showModelLoading;
  setTimeout modelName.

(** The callback that [setModel] passes to [setTimeout]. *)
Definition modelLoaded (modelName : string) : M unit :=
  _ ← hideModelLoading;
  updateModelPerformance modelName.

Definition setConfidence (percent : Q) : M unit :=
  _ ← update (set_threshold (percent / 100)%Q);
  emit (LogConfidence percent).

Definition enableTracking (enabled : bool) : M unit :=
  _ ← update (set_trackingEnabled enabled);
  _ ← emit (LogTracking enabled);
  if negb enabled then clearTrackingData else mret tt.

Definition destroy : M unit :=
  _ ← stop;
  _ ← update (set_detectedObjects ∅);
  _ ← update (set_detectionHistory []);
  emit LogDestroyed.

(** *** The page: listeners and the browser's scheduler *)

(** What can happen between two turns of the event loop: one of the
    document events the engine listens to, a direct call of [destroy],
    the browser running a pending animation-frame callback, or a pending
    [setModel] timer firing. *)
Inductive Input : Type :=
| startSurveillance
| stopSurveillance
| modelChanged (model : string)
| confidenceChanged (percent : Q)
| trackingToggled (enabled : bool)
| requestPerformanceUpdate
| callDestroy
| animationFrame
| timeout.

Definition take_raf : M bool :=
  fun s => match rafPending s with
           | O => (false, s)
           | S k => (true, mkSt (engine s) (world s) (effects s) k
                                (timers s) (framesProcessed s))
           end.

Definition take_timer : M (option string) :=
  fun s => match timers s with
           | [] => (None, s)
           | m :: rest => (Some m, mkSt (engine s) (world s) (effects s)
                                        (rafPending s) rest (framesProcessed s))
           end.

Definition handle (i : Input) : M unit :=
  match i with
  | startSurveillance => start
  | stopSurveillance => stop
  | modelChanged m => setModel m
  | confidenceChanged c => setConfidence c
  | trackingToggled b => enableTracking b
  | requestPerformanceUpdate => updatePerformanceMetrics
  | callDestroy => destroy
  | animationFrame =>
      pending ← take_raf;
      if (pending : bool) then startDetectionLoop else mret tt
  | timeout =>
      t ← take_timer;
      match t with
      | Some m => modelLoaded m
      | None => mret tt
      end
  end.

Definition run (inputs : list Input) : M unit := forEach inputs handle.

Definition initial (w : World) : St := mkSt new_engine w [] 0 [] 0.

(** *** A steady scene *)

(** A page on which every frame draws the same eight numbers: the frame
    has a detection ([0.9 > 0.8]), exactly one ([floor(0 * max) + 1]), of
    the first class of the vocabulary, with the same score and the same
    box each time.  The clock ticks at each reading. *)
Definition steady_draws : list Q :=
  [ 9 # 10; 0; 0; 1 # 2; 1 # 2; 1 # 2; 1 # 2; 1 # 2 ]%Q.

Definition steady_world : World :=
  mkWorld (fun n => nth (n mod 8) steady_draws 0%Q) 0
          (fun n => 1000 + Z.of_nat n) 0 true.

(** The engine of that page once tracking has been switched on. *)
Definition steady_tracking : St :=
  exec (enableTracking true) (initial steady_world).

(** The steady page with another clock: the first reading is the same,
    1000, and the later ones are four seconds ahead. *)
Definition late_clock_world : World :=
  mkWorld (random steady_world) 0
          (fun n => match n with O => 1000 | S _ => 5000 + Z.of_nat n end) 0 true.

(** *** Vocabulary of the statements *)

(** How a call ends.  No method of the class has a [throw] statement, and
    none applies an operation that raises on the values it can hold, so a
    call of a method [m] always ends by returning. *)
Inductive Completion (A : Type) : Type :=
| Returns (a : A)
| Throws (error : string) (detail : string).
Arguments Returns {A} a.
Arguments Throws {A} error detail.

Definition call {A} (m : M A) (s : St) : Completion A * St :=
  (Returns (eval m s), exec m s).

(** The identifiers carried by a list of detections, in order. *)
Definition ids (ds : list Detection) : list Z := omap id ds.

(** The identifiers printed by [console.log('Detection:', logEntry)]. *)
Definition logged_ids (effs : list Effect) : list Z :=
  omap (fun eff => match eff with
                   | LogDetection entry => log_id entry
                   | _ => None
                   end) effs.

(** The inputs that end in [this.trackingId = 1]. *)
Definition resets (i : Input) : bool :=
  match i with
  | stopSurveillance | callDestroy | trackingToggled false => true
  | _ => false
  end.

(** The same object seen again with zero motion: same class, same box
    (so the two boxes overlap with IoU 1). *)
Definition same_object (d1 d2 : Detection) : Prop :=
  class d1 = class d2 /\ bbox d1 = bbox d2.

(** The score a handled detection shows in an effect, if the effect is
    about a detection. *)
Definition effect_score (eff : Effect) : option Q :=
  match eff with
  | Dispatch (newDetection d) => Some (confidence d)
  | Dispatch (securityAlert a) => Some (alert_confidence a)
  | LogDetection entry => Some (log_confidence entry)
  | _ => None
  end.

Definition score_ok (thr : Q) (o : option Q) : Prop :=
  match o with
  | Some c => (thr <= c)%Q
  | None => True
  end.

(** Tracking is switched on. *)
Definition tracking_on (s : St) : Prop := trackingEnabled (engine s) = true.

(** A step that leaves every field of the engine as it is. *)
Definition engine_untouched (s s' : St) : Prop := engine s' = engine s.

(** A detection without its timestamp. *)
Definition untimed (d : Detection) : Detection := set_timestamp (Millis 0) d.

(** Two engines with the same flags, model and threshold, the same map of
    detected objects, the same identifier counter, and histories that
    differ at most in the timestamps of their entries. *)
Definition same_tracks (e1 e2 : Engine) : Prop :=
  isActive e1 = isActive e2 /\
  trackingEnabled e1 = trackingEnabled e2 /\
  currentModel e1 = currentModel e2 /\
  threshold e1 = threshold e2 /\
  detectedObjects e1 = detectedObjects e2 /\
  trackingId e1 = trackingId e2 /\
  map untimed (detectionHistory e1) = map untimed (detectionHistory e2).

(** The history buffer is within its capacity. *)
Definition history_bounded (s : St) : Prop :=
  (length (detectionHistory (engine s)) <= 100)%nat.

(** A step taken while the engine is stopped: it stays stopped, no frame
    is processed, and no animation-frame callback is added. *)
Definition stopped_step (s s' : St) : Prop :=
  isActive (engine s) = false ->
  isActive (engine s') = false /\
  framesProcessed s' = framesProcessed s /\
  (rafPending s' <= rafPending s)%nat.

(** A step that only hands on detections scoring at least [thr]: the
    threshold stays [thr]; the effects it adds, the history entries it adds
    and the map entries it adds or replaces all score at least [thr]. *)
Definition handled_above (thr : Q) (s s' : St) : Prop :=
  threshold (engine s) = thr ->
  threshold (engine s') = thr /\
  (exists new, effects s' = effects s ++ new /\
               Forall (fun eff => score_ok thr (effect_score eff)) new) /\
  (forall d, In d (detectionHistory (engine s')) ->
             In d (detectionHistory (engine s)) \/ (thr <= confidence d)%Q) /\
  (forall k d, detectedObjects (engine s') !! k = Some d ->
               detectedObjects (engine s) !! k = Some d \/ (thr <= confidence d)%Q).

(** A step that does not move the identifier counter backwards. *)
Definition counter_grows (s s' : St) : Prop :=
  trackingId (engine s) <= trackingId (engine s').

(** The fields that [simulateDetections] leaves alone. *)
Definition same_but_ids (s s' : St) : Prop :=
  isActive (engine s') = isActive (engine s) /\
  trackingEnabled (engine s') = trackingEnabled (engine s) /\
  currentModel (engine s') = currentModel (engine s) /\
  threshold (engine s') = threshold (engine s) /\
  detectedObjects (engine s') = detectedObjects (engine s) /\
  detectionHistory (engine s') = detectionHistory (engine s) /\
  effects s' = effects s /\ rafPending s' = rafPending s /\
  timers s' = timers s /\ framesProcessed s' = framesProcessed s.

(** *** assessThreatLevel *)

Definition assessThreatLevel (e : Engine) : string :=
  let recentDetections := JS.slice_last 10 (detectionHistory e) in
  let personDetections :=
    length (List.filter (fun d => String.eqb (class d) "person") recentDetections) in
  let trailDetections :=
    length (List.filter (fun d => String.eqb (class d) "unauthorized-trail")
                        recentDetections) in
  if (0 <? trailDetections)%nat && (0 <? personDetections)%nat then "critical"
  else if (2 <? personDetections)%nat then "high"
  else if (0 <? personDetections)%nat then "medium"
  else "low".

(** *** calculateAverageConfidence *)

(** [x.toFixed(1)] for [x >= 0], in tenths: the nearest, a tie going
    up. *)
Definition toFixed1 (q : Q) : Z := JS.floor (q * 10 + (1 # 2)).

(** The method returns the number 0 for an empty history and otherwise
    the string printed by [toFixed(1)]; both are kept as a number of
    tenths of a percent. *)
Definition calculateAverageConfidence (e : Engine) : Z :=
  match detectionHistory e with
  | [] => 0
  | _ :: _ =>
      let sum := fold_left (fun acc detection => (acc + confidence detection)%Q)
                           (detectionHistory e) 0%Q in
      toFixed1 (sum / inject_Z (Z.of_nat (length (detectionHistory e))) * 100)
  end.

(** *** Vocabulary of the further statements *)

(** The number of [console.log('Detection:', _)] lines. *)
Definition logged (effs : list Effect) : nat :=
  length (List.filter (fun eff => match eff with
                                  | LogDetection _ => true
                                  | _ => false
                                  end) effs).

(** Two states with the same engine on the same page. *)
Definition same_engine_and_world (s1 s2 : St) : Prop :=
  engine s1 = engine s2 /\ world s1 = world s2.

(** A step that writes no detection line and leaves the threshold. *)
Definition log_untouched (s s' : St) : Prop :=
  threshold (engine s') = threshold (engine s) /\
  logged (effects s') = logged (effects s).

(** [Math.random()] answers in [0, 1), as its specification says. *)
Definition draws_in_unit (w : World) : Prop :=
  forall n, (0 <= random w n)%Q /\ (random w n < 1)%Q.

(** A box that fits the 1280 x 720 frame assumed by
    [generateBoundingBox], with the width and height ranges its comments
    give. *)
Definition in_canvas (b : BBox) : Prop :=
  (80 <= width b)%Q /\ (width b <= 280)%Q /\
  (120 <= height b)%Q /\ (height b <= 420)%Q /\
  (0 <= x b)%Q /\ (x b + width b <= 1280)%Q /\
  (0 <= y b)%Q /\ (y b + height b <= 720)%Q.

(** A class name that is not the name of a member of [Object.prototype]. *)
Definition plain_class (c : string) : bool :=
  negb (existsb (String.eqb c) JS.prototype_members).

(** What an alert can be: one of the three classes of [alertConditions],
    scoring above that class's bar, with that class's severity. *)
Definition alert_ok (a : AlertData) : Prop :=
  (alert_class a = "person"%string /\ (8 # 10 < alert_confidence a)%Q /\
   alert_severity a = JS.Own "high"%string) \/
  (alert_class a = "unauthorized-trail"%string /\ (7 # 10 < alert_confidence a)%Q /\
   alert_severity a = JS.Own "critical"%string) \/
  (alert_class a = "vehicle"%string /\ (85 # 100 < alert_confidence a)%Q /\
   alert_severity a = JS.Own "medium"%string).

Definition alerts_ok (s : St) : Prop :=
  forall a, In (Dispatch (securityAlert a)) (effects s) -> alert_ok a.

(** The number of [modelLoading] events with the given flag. *)
Definition loading_events (flag : bool) (effs : list Effect) : nat :=
  length (List.filter (fun eff => match eff with
                                  | Dispatch (modelLoading b) => Bool.eqb b flag
                                  | _ => false
                                  end) effs).

(** Every loading indicator shown has been hidden or has its timer
    pending. *)
Definition loading_balanced (s : St) : Prop :=
  loading_events true (effects s) =
  (loading_events false (effects s) + length (timers s))%nat.


(** A step that leaves the loop's bookkeeping alone. *)
Definition loop_untouched (s s' : St) : Prop :=
  isActive (engine s') = isActive (engine s) /\
  rafPending s' = rafPending s /\
  timers s' = timers s /\
  framesProcessed s' = framesProcessed s.

(** A step that removes no key from the map of detected objects. *)
Definition stored_kept (s s' : St) : Prop :=
  dom (detectedObjects (engine s)) ⊆ dom (detectedObjects (engine s')).

(** The inputs that empty the map of detected objects. *)
Definition clears (i : Input) : bool :=
  match i with
  | stopSurveillance | callDestroy => true
  | _ => false
  end.

End Engine.

(** ** The video handler (video-handler.js) *)

Module Video.

Record BBox : Type := mkBBox {
  x : Q; y : Q; width : Q; height : Q
}.

(** The object literal built by [generateRandomDetection].  [confidence]
    is the string printed by [toFixed(2)], kept as its number of
    hundredths. *)
Record Detection : Type := mkDetection {
  id : Z;
  class : string;
  confidence : Z;
  bbox : BBox;
  color : string
}.

(** A [div.detection-box] appended to the overlay: [node] is the
    identity of the DOM element, the rest is what its style and label
    show. *)
Record Box : Type := mkBox {
  node : nat;
  shown : Detection
}.

Record Alert : Type := mkAlert {
  alert_time : Z;
  alert_confidence : Z;
  alert_id : Z
}.

(** [canvasWidth], [canvasHeight]: what [aiCanvas.getBoundingClientRect()]
    reports. *)
Record World : Type := mkWorld {
  random : nat -> Q;
  rcur : nat;
  clock : nat -> Z;
  ccur : nat;
  canvasWidth : Q;
  canvasHeight : Q
}.

(** [detectionOverlay]: the children of the overlay element, in document
    order.  [alertsContainer]: its children, newest first.  [nextNode]:
    the next fresh DOM element.  [removals]: the boxes whose two-second
    timer is pending, oldest first.  [fadeOuts]: the boxes whose 300 ms
    timer is pending, oldest first.  [faded]: the elements whose
    [style.opacity] has been set to ['0'].  The class ['new'] of a box,
    and the 600 ms timer that takes it off, are not part of the state. *)
Record St : Type := mkSt {
  isProcessing : bool;
  detectionOverlay : list Box;
  alertsContainer : list Alert;
  nextNode : nat;
  removals : list nat;
  fadeOuts : list nat;
  faded : list nat;
  rafPending : nat;
  world : World
}.

Abbreviation M := (State St).

Definition this : M St := fun s => (s, s).

Definition set_isProcessing (b : bool) : M unit :=
  fun s => (tt, mkSt b (detectionOverlay s) (alertsContainer s) (nextNode s)
                     (removals s) (fadeOuts s) (faded s) (rafPending s) (world s)).
Definition set_detectionOverlay (o : list Box) : M unit :=
  fun s => (tt, mkSt (isProcessing s) o (alertsContainer s) (nextNode s)
                     (removals s) (fadeOuts s) (faded s) (rafPending s) (world s)).
Definition set_alertsContainer (a : list Alert) : M unit :=
  fun s => (tt, mkSt (isProcessing s) (detectionOverlay s) a (nextNode s)
                     (removals s) (fadeOuts s) (faded s) (rafPending s) (world s)).
Definition set_removals (r : list nat) : M unit :=
  fun s => (tt, mkSt (isProcessing s) (detectionOverlay s) (alertsContainer s)
                     (nextNode s) r (fadeOuts s) (faded s) (rafPending s) (world s)).
Definition set_fadeOuts (r : list nat) : M unit :=
  fun s => (tt, mkSt (isProcessing s) (detectionOverlay s) (alertsContainer s)
                     (nextNode s) (removals s) r (faded s) (rafPending s) (world s)).
Definition set_faded (f : list nat) : M unit :=
  fun s => (tt, mkSt (isProcessing s) (detectionOverlay s) (alertsContainer s)
                     (nextNode s) (removals s) (fadeOuts s) f (rafPending s) (world s)).
Definition set_rafPending (n : nat) : M unit :=
  fun s => (tt, mkSt (isProcessing s) (detectionOverlay s) (alertsContainer s)
                     (nextNode s) (removals s) (fadeOuts s) (faded s) n (world s)).
Definition set_world (w : World) : M unit :=
  fun s => (tt, mkSt (isProcessing s) (detectionOverlay s) (alertsContainer s)
                     (nextNode s) (removals s) (fadeOuts s) (faded s)
                     (rafPending s) w).

(** [document.createElement('div')]. *)
Definition createElement : M nat :=
  fun s => (nextNode s,
            mkSt (isProcessing s) (detectionOverlay s) (alertsContainer s)
                 (S (nextNode s)) (removals s) (fadeOuts s) (faded s)
                 (rafPending s) (world s)).

Definition Math_random : M Q :=
  s ← this;
  let w := world s in
  _ ← set_world (mkWorld (random w) (S (rcur w)) (clock w) (ccur w)
                         (canvasWidth w) (canvasHeight w));
  mret (random w (rcur w)).

Definition Date_now : M Z :=
  s ← this;
  let w := world s in
  _ ← set_world (mkWorld (random w) (rcur w) (clock w) (S (ccur w))
                         (canvasWidth w) (canvasHeight w));
  mret (clock w (ccur w)).

(** *** getRandomColor *)

Definition colors : list string :=
  [ "#00E5FF"; "#39FF14"; "#FF5252"; "#FFA726";
    "#AB47BC"; "#42A5F5"; "#66BB6A"; "#FF7043" ]%string.

Definition getRandomColor : M string :=
  r ← Math_random;
  mret (JS.index colors (JS.floor (r * inject_Z (Z.of_nat (length colors))))).

(** *** generateRandomDetection *)

(** [x.toFixed(2)] for [x >= 0], in hundredths: the nearest, a tie going
    up. *)
Definition toFixed2 (q : Q) : Z := JS.floor (q * 100 + (1 # 2)).

Definition generateRandomDetection : M Detection :=
  s ← this;
  let canvasRect := world s in
  r_id ← Math_random;
  r_conf ← Math_random;
  r_x ← Math_random;
  r_y ← Math_random;
  r_w ← Math_random;
  r_h ← Math_random;
  c ← getRandomColor;
  mret (mkDetection
          (JS.floor (r_id * 100))
          "person"
          (toFixed2 (r_conf * (3 # 10) + (7 # 10)))
          (mkBBox (r_x * (canvasWidth canvasRect - 150))
                  (r_y * (canvasHeight canvasRect - 200))
                  (100 + r_w * 50)
                  (150 + r_h * 50))
          c).

(** *** clearDetections, drawDetection, addDetectionAlert *)

Definition clearDetections : M unit := set_detectionOverlay [].

(** The box is created, appended to the overlay, and its two-second
    timer is started. *)
Definition drawDetection (detection : Detection) : M unit :=
  detectionBox ← createElement;
  s ← this;
  _ ← set_detectionOverlay (detectionOverlay s ++ [mkBox detectionBox detection]);
  s ← this;
  set_removals (removals s ++ [detectionBox]).

(** [detectionBox.parentNode]: a box has a parent while it is a child of
    the overlay, the only element it is ever appended to. *)
Definition parentNode (detectionBox : nat) : M bool :=
  s ← this;
  mret (existsb (fun b => Nat.eqb (node b) detectionBox) (detectionOverlay s)).

(** The callback of the two-second timer: under
    [if (detectionBox.parentNode)], [style.opacity = '0'] and a 300 ms
    timer is started. *)
Definition fadeBox (detectionBox : nat) : M unit :=
  attached ← parentNode detectionBox;
  if (attached : bool) then
    s ← this;
    _ ← set_faded (faded s ++ [detectionBox]);
    s ← this;
    set_fadeOuts (fadeOuts s ++ [detectionBox])
  else mret tt.

(** The callback of the 300 ms timer:
    [if (detectionBox.parentNode) detectionBox.remove()]. *)
Definition removeBox (detectionBox : nat) : M unit :=
  attached ← parentNode detectionBox;
  if (attached : bool) then
    s ← this;
    set_detectionOverlay
      (filter (fun b => node b ≠ detectionBox) (detectionOverlay s))
  else mret tt.

(** [insertBefore(alert, firstChild)], then [while (children.length > 5)
    removeChild(lastChild)]. *)
Definition addDetectionAlert (detection : Detection) : M unit :=
  timestamp ← Date_now;
  s ← this;
  set_alertsContainer
    (take 5 (mkAlert timestamp (confidence detection) (id detection)
             :: alertsContainer s)).

(** *** simulateDetections, processFrame, startProcessing, stopProcessing *)

(** Returns unit in the source; here it returns the detection it drew,
    if any, so that statements can name it. *)
Definition simulateDetections : M (option Detection) :=
  _ ← clearDetections;
  r ← Math_random;
  if JS.gt r (7 # 10) then
    detection ← generateRandomDetection;
    _ ← drawDetection detection;
    _ ← addDetectionAlert detection;
    mret (Some detection)
  else mret None.

Definition processFrame : M unit :=
  s ← this;
  if negb (isProcessing s) then mret tt
  else
    _ ← simulateDetections;
    s ← this;
    set_rafPending (S (rafPending s)).

Definition startProcessing : M unit :=
  s ← this;
  if isProcessing s then mret tt
  else
    _ ← set_isProcessing true;
    processFrame.

Definition stopProcessing : M unit :=
  _ ← set_isProcessing false;
  clearDetections.

(** *** constructor and two frames of a demo *)

Definition initial (w : World) : St := mkSt false [] [] 0 [] [] [] 0 w.

(** A page whose first two frames both draw a detection ([0.9 > 0.7])
    with [Math.floor(0.07 * 100)] as its id; the colour draw is 0 in the
    first frame and 0.5 in the second. *)
Definition two_frames_draws : list Q :=
  [ 9 # 10; 7 # 100; 1 # 2; 1 # 2; 1 # 2; 1 # 2; 1 # 2; 0;
    9 # 10; 7 # 100; 1 # 2; 1 # 2; 1 # 2; 1 # 2; 1 # 2; 1 # 2 ]%Q.

Definition two_frames_world : World :=
  mkWorld (fun n => nth n two_frames_draws 0%Q) 0
          (fun n => 1000 + Z.of_nat n) 0 1280%Q 720%Q.

(** *** destroy, and the page's scheduler *)

(** [this.stream] (the camera tracks) is not part of the state here. *)
Definition destroy : M unit :=
  _ ← stopProcessing;
  clearDetections.

(** What can happen between two turns of the event loop: a call of one of
    the public methods, the browser running a pending animation-frame
    callback, the oldest pending two-second timer of a box firing, or the
    oldest pending 300 ms timer of a box firing. *)
Inductive Input : Type :=
| callStartProcessing
| callStopProcessing
| callDestroy
| animationFrame
| removalTimeout
| fadeOutTimeout.

Definition take_raf : M bool :=
  s ← this;
  match rafPending s with
  | O => mret false
  | S k => _ ← set_rafPending k; mret true
  end.

Definition take_removal : M (option nat) :=
  s ← this;
  match removals s with
  | [] => mret None
  | n :: rest => _ ← set_removals rest; mret (Some n)
  end.

Definition take_fadeOut : M (option nat) :=
  s ← this;
  match fadeOuts s with
  | [] => mret None
  | n :: rest => _ ← set_fadeOuts rest; mret (Some n)
  end.

Definition handle (i : Input) : M unit :=
  match i with
  | callStartProcessing => startProcessing
  | callStopProcessing => stopProcessing
  | callDestroy => destroy
  | animationFrame =>
      pending ← take_raf;
      if (pending : bool) then processFrame else mret tt
  | removalTimeout =>
      t ← take_removal;
      match t with
      | Some n => fadeBox n
      | None => mret tt
      end
  | fadeOutTimeout =>
      t ← take_fadeOut;
      match t with
      | Some n => removeBox n
      | None => mret tt
      end
  end.

Definition run (inputs : list Input) : M unit := forEach inputs handle.

(** The inputs that clear [isProcessing]. *)
Definition stops (i : Input) : bool :=
  match i with
  | callStopProcessing | callDestroy => true
  | _ => false
  end.

(** *** hexToRgb *)

(** The value of a character matched by [[a-f\d]] under the [i] flag. *)
Definition hex_digit (c : Ascii.ascii) : option Z :=
  let n := Z.of_nat (Ascii.nat_of_ascii c) in
  if (48 <=? n) && (n <=? 57) then Some (n - 48)
  else if (97 <=? n) && (n <=? 102) then Some (n - 87)
  else if (65 <=? n) && (n <=? 70) then Some (n - 55)
  else None.

(** [parseInt(pair, 16)] for a matched pair of characters. *)
Definition hex_pair (a b : Ascii.ascii) : option Z :=
  match hex_digit a, hex_digit b with
  | Some h, Some l => Some (16 * h + l)
  | _, _ => None
  end.

(** The regular expression is anchored at both ends: an optional [#], then
    exactly three pairs of hexadecimal digits.  The result is the string
    [r, g, b]; it is kept here as the three numbers, and the string
    ['255, 255, 255'] of the failing case as three times 255. *)
Definition hexToRgb (hex : string) : Z * Z * Z :=
  let digits := match hex with
                | String "#"%char rest => rest
                | _ => hex
                end in
  match digits with
  | String c1 (String c2 (String c3 (String c4 (String c5 (String c6 EmptyString))))) =>
      match hex_pair c1 c2, hex_pair c3 c4, hex_pair c5 c6 with
      | Some r, Some g, Some b => (r, g, b)
      | _, _, _ => (255, 255, 255)
      end
  | _ => (255, 255, 255)
  end.

(** The strings that the regular expression matches: an optional [#],
    then six characters of [[a-f\d]] in either case. *)
Definition six (c1 c2 c3 c4 c5 c6 : Ascii.ascii) : string :=
  String c1 (String c2 (String c3 (String c4 (String c5 (String c6 EmptyString))))).

Definition hex_colour (hex : string) : Prop :=
  exists c1 c2 c3 c4 c5 c6,
    (hex = six c1 c2 c3 c4 c5 c6 \/ hex = String "#"%char (six c1 c2 c3 c4 c5 c6)) /\
    Forall (fun c => is_Some (hex_digit c)) [c1; c2; c3; c4; c5; c6].

(** *** updateDroneStatus *)

(** What the method writes into the [.status-value] elements it finds:
    the coordinates (before [toFixed(5)]), the altitude in metres, the
    clock reading behind the flight time, and the battery percentage with
    the colour it is shown in. *)
Record DroneStatus : Type := mkDroneStatus {
  gps : option (Q * Q);
  altitude : option Z;
  flightTime : option Z;
  battery : option (Z * string)
}.

(** [statusItems] is the number of [.status-value] elements of the page:
    [statusItems[k]] is defined for [k] below it. *)
Definition updateDroneStatus (statusItems : nat) : M DroneStatus :=
  let baseLat : Q := (3279639 # 100000)%Q in
  let baseLon : Q := (7487294 # 100000)%Q in
  r_lat ← Math_random;
  let latVariation := ((r_lat - (1 # 2)) * (1 # 1000))%Q in
  r_lon ← Math_random;
  let lonVariation := ((r_lon - (1 # 2)) * (1 # 1000))%Q in
  let g := if (0 <? statusItems)%nat
           then Some ((baseLat + latVariation)%Q, (baseLon + lonVariation)%Q)
           else None in
  a ← (if (1 <? statusItems)%nat
       then r ← Math_random; mret (Some (150 + JS.floor (r * 20 - 10)))
       else mret None);
  f ← (if (2 <? statusItems)%nat
       then now ← Date_now; mret (Some now)
       else mret None);
  b ← (if (3 <? statusItems)%nat
       then r ← Math_random;
            let battery := 78 + JS.floor (r * 5 - 2) in
            mret (Some (battery,
                        if battery <? 20 then "#FF5252"%string
                        else if battery <? 50 then "#FFA726"%string
                        else "#39FF14"%string))
       else mret None);
  mret (mkDroneStatus g a f b).

(** *** Vocabulary of the statements *)

Definition draws_in_unit (w : World) : Prop :=
  forall n, (0 <= random w n)%Q /\ (random w n < 1)%Q.

(** A box inside the canvas of the page. *)
Definition in_canvas (w : World) (b : BBox) : Prop :=
  (0 <= x b)%Q /\ (x b + width b <= canvasWidth w)%Q /\
  (0 <= y b)%Q /\ (y b + height b <= canvasHeight w)%Q /\
  (100 <= width b)%Q /\ (width b <= 150)%Q /\
  (150 <= height b)%Q /\ (height b <= 200)%Q.

(** The handler is idle with no callback pending, or processing with
    exactly one. *)
Definition one_loop (s : St) : Prop :=
  (isProcessing s = false /\ rafPending s = 0%nat) \/
  (isProcessing s = true /\ rafPending s = 1%nat).

(** A step taken while processing is stopped and the overlay empty. *)
Definition stopped_step (s s' : St) : Prop :=
  isProcessing s = false /\ detectionOverlay s = [] ->
  isProcessing s' = false /\ detectionOverlay s' = [] /\
  (rafPending s' <= rafPending s)%nat.

End Video.

(** ** The application shell (main.js) *)

Module App.

Record ModelStats : Type := mkModelStats {
  name : string;
  performance : string;
  accuracy : string
}.

Definition modelData : list (string * ModelStats) :=
  [ ("yolov11n", mkModelStats "YOLOv11n" "High" "94.2%");
    ("yolov11s", mkModelStats "YOLOv11s" "High" "96.1%");
    ("yolov11m", mkModelStats "YOLOv11m" "Medium" "97.8%");
    ("foottrail", mkModelStats "FootTrail" "Medium" "92.5%") ]%string.

(** [return modelData[model] || modelData['yolov11n']]. *)
Definition getModelStats (model : string) : JS.Prop_ ModelStats :=
  JS.or (JS.get modelData model) (JS.get modelData "yolov11n").

End App.

(** ** The tracker's track lifecycle *)

Module Tracker.

(** The tracker configuration file, bytetrack.yaml. *)
Record Config : Type := mkConfig {
  track_high_thresh : Q;
  track_low_thresh : Q;
  new_track_thresh : Q;
  track_buffer : nat;
  match_thresh : Q;
  proximity_thresh : Q;
  frame_rate : nat;
  track_activation_thresh : Q
}.

Definition bytetrack_yaml : Config :=
  mkConfig (6 # 10) (1 # 10) (7 # 10) 30 (8 # 10) (5 # 10) 30 (6 # 10).

Inductive TrackState : Type := Tentative | Confirmed | Lost | Removed.

Record Track : Type := mkTrack {
  identifier : Z;
  state : TrackState;
  time_since_update : nat;
  age : nat
}.

(** Modelled from the spec: the tracker that ages and removes tracks is
    not among the sources (only its configuration file is).  This is step
    4 of the association algorithm for one matched track:
    time-since-update is reset to 0, and a Tentative or Lost track
    becomes Confirmed. *)
Definition update_matched (t : Track) : Track :=
  mkTrack (identifier t)
          (match state t with
           | Tentative | Lost | Confirmed => Confirmed
           | Removed => Removed
           end)
          (match state t with Removed => time_since_update t | _ => 0%nat end)
          (S (age t)).

(** Modelled from the spec: the ageing of an unmatched track is not among
    the sources.  This is step 5 of the association algorithm for one
    track, its three actions in the order the spec lists them:
    time-since-update is incremented; a Confirmed track becomes Lost on
    its first miss; a Lost track becomes Removed once time-since-update
    exceeds [track_buffer].  A Removed track has left the live set and
    stays as it is. *)
Definition age_unmatched (cfg : Config) (t : Track) : Track :=
  match state t with
  | Removed => t
  | st =>
      let tsu := S (time_since_update t) in
      let st1 := match st with Confirmed => Lost | other => other end in
      let st2 := match st1 with
                 | Lost => if (track_buffer cfg <? tsu)%nat then Removed else Lost
                 | other => other
                 end in
      mkTrack (identifier t) st2 tsu (S (age t))
  end.

(** The track after [k] further frames without a detection for it. *)
Definition after_misses (cfg : Config) (k : nat) (t : Track) : Track :=
  Nat.iter k (age_unmatched cfg) t.

Definition live (t : Track) : bool :=
  match state t with Removed => false | _ => true end.

(** A confirmed track, five frames old, matched in the current frame. *)
Definition sample_track : Track := mkTrack 1 Confirmed 0 5.

End Tracker.

(** * Properties *)

Import Engine.

(** ** Reasoning about state-passing computations *)

Ltac run_m :=
  unfold exec, eval, mbind, State_bind, mret, State_ret, this, update, emit,
    Math_random, Date_now, window_videoHandler, requestAnimationFrame,
    setTimeout, count_frame, take_raf, take_timer, with_world; cbn.

(** For the longer methods: the state is taken apart first, so that every
    field read reduces, and the method is unfolded with sharing. *)
Ltac run_on s :=
  destruct s as [[? ? ? ? ? ? ?] [? ? ? ? ?] ? ? ? ?];
  lazy beta iota zeta delta
    [exec eval mbind State_bind mret State_ret this update emit
     Math_random Date_now window_videoHandler requestAnimationFrame
     setTimeout count_frame take_raf take_timer with_world fst snd
     engine world effects rafPending timers framesProcessed
     random rcur clock ccur videoHandler
     isActive trackingEnabled currentModel threshold detectedObjects
     trackingId detectionHistory
     set_isActive set_trackingEnabled set_currentModel set_threshold
     set_detectedObjects set_trackingId set_detectionHistory
     set_id set_timestamp id class confidence bbox timestamp].

Section Steps.
Context {S : Type} (R : S -> S -> Prop) `{!PreOrder R}.

Lemma steps_ret {A} (a : A) : steps R (mret a).
Proof. intros s. reflexivity. Qed.

Lemma steps_bind {A B} (m : State S A) (f : A -> State S B) :
  steps R m -> (forall a, steps R (f a)) -> steps R (m ≫= f).
Proof.
  intros Hm Hf s. specialize (Hm s). unfold exec, mbind, State_bind in *.
  destruct (m s) as [a s1]. cbn in *.
  transitivity s1; [exact Hm | apply Hf].
Qed.

Lemma steps_forEach {A} (l : list A) (f : A -> State S unit) :
  (forall a, In a l -> steps R (f a)) -> steps R (forEach l f).
Proof.
  induction l as [|a l IH]; intros Hf; cbn [forEach].
  - apply steps_ret.
  - apply steps_bind; [apply Hf; now left | intros _; apply IH].
    intros b Hb. apply Hf. now right.
Qed.

End Steps.

Lemma steps_weaken {S A} (R R' : S -> S -> Prop) (m : State S A) :
  (forall s s', R s s' -> R' s s') -> steps R m -> steps R' m.
Proof. intros HR Hm s. apply HR, Hm. Qed.

#[local] Instance keeps_preorder {S} (I : S -> Prop) : PreOrder (keeps I).
Proof. split; unfold keeps; [intros s | intros s1 s2 s3]; tauto. Qed.

(** Splits a goal [steps R m] along the structure of [m]; [leaf] closes
    the calls it reaches. *)
Ltac steps_split leaf :=
  repeat (intros; lazymatch goal with
  | |- PreOrder _ => typeclasses eauto
  | |- steps _ (mret _) => apply steps_ret
  | |- steps _ (mbind _ _) => apply steps_bind
  | |- steps _ (forEach _ _) => apply steps_forEach
  | |- steps _ (let _ := _ in _) => cbv zeta
  | |- steps _ (if ?b then _ else _) => destruct b
  | |- steps _ (match ?x with _ => _ end) => destruct x
  | |- _ => leaf
  end).

(** ** What [simulateDetections] leaves alone *)

#[local] Instance same_but_ids_preorder : PreOrder same_but_ids.
Proof.
  split.
  - intros s. unfold same_but_ids. tauto.
  - intros s1 s2 s3 H12 H23. unfold same_but_ids in *.
    destruct H12 as (?&?&?&?&?&?&?&?&?&?), H23 as (?&?&?&?&?&?&?&?&?&?).
    repeat split; congruence.
Qed.

Ltac prim_same_but_ids :=
  let s := fresh "s" in
  intros s; unfold same_but_ids; run_m; tauto.

Lemma generateBoundingBox_same_but_ids : steps same_but_ids generateBoundingBox.
Proof. unfold generateBoundingBox. steps_split prim_same_but_ids. Qed.

Lemma getTrackingId_same_but_ids c : steps same_but_ids (getTrackingId c).
Proof. unfold getTrackingId. steps_split prim_same_but_ids. Qed.

Lemma generateDetection_same_but_ids cfg : steps same_but_ids (generateDetection cfg).
Proof.
  unfold generateDetection.
  steps_split ltac:(first [ apply generateBoundingBox_same_but_ids
                          | apply getTrackingId_same_but_ids
                          | prim_same_but_ids ]).
Qed.

Lemma generateDetections_same_but_ids n cfg :
  steps same_but_ids (generateDetections n cfg).
Proof.
  induction n as [|n IH]; cbn [generateDetections].
  - steps_split fail.
  - steps_split ltac:(first [ apply generateDetection_same_but_ids | apply IH ]).
Qed.

Lemma simulateDetections_same_but_ids : steps same_but_ids simulateDetections.
Proof.
  unfold simulateDetections.
  steps_split ltac:(first [ apply generateDetections_same_but_ids
                          | prim_same_but_ids ]).
Qed.

(** ** The history buffer *)

Lemma storeDetection_history d s :
  exists t,
    detectionHistory (engine (exec (storeDetection d) s)) =
    let h := detectionHistory (engine s) ++ [set_timestamp (IsoString t) d] in
    if 100 <? Z.of_nat (length h) then tail h else h.
Proof.
  unfold storeDetection, storeKey.
  destruct (id d) as [i|]; [destruct (i =? 0)|].
  1, 3: exists (clock (world s) (S (ccur (world s)))).
  3: exists (clock (world s) (ccur (world s))).
  all: run_m; unfold set_detectionHistory, set_detectedObjects; cbn;
    match goal with |- context [if ?c then _ else _] => destruct c end;
    reflexivity.
Qed.

Lemma storeDetection_bounded d : steps (keeps history_bounded) (storeDetection d).
Proof.
  intros s. unfold keeps, history_bounded. intros Hs.
  destruct (storeDetection_history d s) as [t ->]. cbv zeta.
  rewrite length_app in *. cbn [length].
  destruct (100 <? _) eqn:E.
  - destruct (detectionHistory (engine s)) as [|h0 h]; cbn in *; [lia|].
    rewrite length_app. cbn. lia.
  - apply Z.ltb_ge in E. rewrite length_app. cbn. lia.
Qed.

Ltac prim_bounded :=
  let s := fresh "s" in
  intros s; unfold keeps, history_bounded; run_m;
  try destruct (rafPending s); try destruct (timers s); cbn; solve [auto | lia].

Lemma handleDetection_bounded d : steps (keeps history_bounded) (handleDetection d).
Proof.
  unfold handleDetection, updateDetectionDisplay, logDetectionEvent, checkAlerts,
    triggerAlert.
  steps_split ltac:(first [ apply storeDetection_bounded | prim_bounded ]).
Qed.

Lemma same_but_ids_bounded s s' : same_but_ids s s' -> keeps history_bounded s s'.
Proof.
  unfold same_but_ids, keeps, history_bounded. intros (_&_&_&_&_&->&_). auto.
Qed.

Lemma processFrame_bounded : steps (keeps history_bounded) processFrame.
Proof.
  unfold processFrame, updatePerformanceMetrics.
  steps_split ltac:(first
    [ apply handleDetection_bounded
    | apply (steps_weaken _ _ _ same_but_ids_bounded), simulateDetections_same_but_ids
    | prim_bounded ]).
Qed.

Lemma handle_bounded i : steps (keeps history_bounded) (handle i).
Proof.
  destruct i; unfold handle, start, stop, destroy, stop, setModel, modelLoaded,
    setConfidence, enableTracking, startDetectionLoop, clearAllDetections,
    clearTrackingData, updatePerformanceMetrics, showModelLoading,
    hideModelLoading, updateModelPerformance.
  all: steps_split ltac:(first [ apply processFrame_bounded | prim_bounded ]).
Qed.

Lemma reachable_bounded w inputs : history_bounded (exec (run inputs) (initial w)).
Proof.
  assert (H : steps (keeps history_bounded) (run inputs)).
  { unfold run. apply steps_forEach; [typeclasses eauto|]. intros i _. apply handle_bounded. }
  apply H. unfold history_bounded. cbn. lia.
Qed.

(** C10.  The history buffer never holds more than 100 entries: it is
    within capacity after any sequence of inputs from the initial state,
    and [storeDetection] keeps it so; when it is called at capacity the
    oldest entry is dropped and the new one is appended. *)
Theorem C10_history_at_most_100 :
  (forall w inputs, history_bounded (exec (run inputs) (initial w))) /\
  (forall s d,
     history_bounded s ->
     history_bounded (exec (storeDetection d) s) /\
     (length (detectionHistory (engine s)) = 100%nat ->
      exists t, detectionHistory (engine (exec (storeDetection d) s)) =
                tail (detectionHistory (engine s)) ++ [set_timestamp (IsoString t) d])).
Proof.
  split; [apply reachable_bounded|].
  intros s d Hs. split; [now apply storeDetection_bounded|].
  intros Hlen. destruct (storeDetection_history d s) as [t Ht].
  exists t. rewrite Ht. cbv zeta. rewrite length_app, Hlen. cbn [length].
  destruct (detectionHistory (engine s)); [discriminate|]. reflexivity.
Qed.

Lemma C10_witness_first_entry :
  let s := initial steady_world in
  let d := mkDetection "person" (9 # 10) (mkBBox 0 0 80 120) (Millis 1000) None in
  history_bounded s /\ history_bounded (exec (storeDetection d) s).
Proof.
  assert (H : history_bounded (initial steady_world)).
  { unfold history_bounded. cbn. lia. }
  split; [exact H|].
  exact (proj1 (proj2 C10_history_at_most_100 (initial steady_world) _ H)).
Defined.

(** ** Stopping *)

#[local] Instance stopped_step_preorder : PreOrder stopped_step.
Proof.
  split.
  - intros s H. auto.
  - intros s1 s2 s3 H12 H23 H1.
    destruct (H12 H1) as (A2 & F2 & P2). destruct (H23 A2) as (A3 & F3 & P3).
    repeat split; [assumption | congruence | lia].
Qed.

Ltac prim_stopped :=
  let s := fresh "s" in let H := fresh "H" in
  intros s H; run_m;
  try destruct (rafPending s) eqn:?; try destruct (timers s) eqn:?; cbn;
  repeat split; solve [auto | lia].

(** The check at the top of an iteration: a stopped engine returns at
    once, without processing and without asking for another frame. *)
Lemma startDetectionLoop_inactive s :
  isActive (engine s) = false -> exec startDetectionLoop s = s.
Proof. intros H. unfold startDetectionLoop. run_m. rewrite H. reflexivity. Qed.

Lemma startDetectionLoop_stopped : steps stopped_step startDetectionLoop.
Proof.
  intros s H. rewrite (startDetectionLoop_inactive s H). repeat split; auto.
Qed.

Lemma handle_stopped i : i <> startSurveillance -> steps stopped_step (handle i).
Proof.
  intros Hi.
  destruct i; try congruence;
    unfold handle, stop, destroy, stop, setModel, modelLoaded,
      setConfidence, enableTracking, clearAllDetections,
      clearTrackingData, updatePerformanceMetrics, showModelLoading,
      hideModelLoading, updateModelPerformance.
  all: steps_split ltac:(first [ apply startDetectionLoop_stopped | prim_stopped ]).
Qed.

Lemma stop_inactive s : isActive (engine (exec stop s)) = false.
Proof. reflexivity. Qed.

(** C9.  Once [stop] has run, and until surveillance is started again, no
    frame is processed: every pending animation-frame callback finds the
    flag cleared at the top of [startDetectionLoop] and returns without
    processing and without scheduling another callback. *)
Theorem C9_stop_is_effective :
  forall s inputs,
    Forall (fun i => i <> startSurveillance) inputs ->
    let s0 := exec stop s in
    let s' := exec (run inputs) s0 in
    framesProcessed s' = framesProcessed s0 /\
    isActive (engine s') = false /\
    (rafPending s' <= rafPending s0)%nat.
Proof.
  intros s inputs Hin s0 s'.
  assert (H : steps stopped_step (run inputs)).
  { unfold run. apply steps_forEach; [typeclasses eauto|].
    intros i Hi. apply handle_stopped.
    rewrite Forall_forall in Hin. apply Hin. now apply list_elem_of_In. }
  destruct (H s0 (stop_inactive s)) as (A & F & P). auto.
Qed.

Lemma C9_witness_pending_callback :
  let s := exec start steady_tracking in
  let inputs := [animationFrame; modelChanged "yolov11s"; animationFrame; timeout] in
  Forall (fun i => i <> startSurveillance) inputs /\
  framesProcessed (exec (run inputs) (exec stop s)) = framesProcessed (exec stop s) /\
  isActive (engine (exec (run inputs) (exec stop s))) = false /\
  (rafPending (exec (run inputs) (exec stop s)) <= rafPending (exec stop s))%nat.
Proof.
  assert (H : Forall (fun i => i <> startSurveillance)
                [animationFrame; modelChanged "yolov11s"; animationFrame; timeout]).
  { repeat constructor; discriminate. }
  split; [exact H|].
  exact (C9_stop_is_effective (exec start steady_tracking) _ H).
Defined.

(** ** The confidence filter *)

#[local] Instance handled_above_preorder thr : PreOrder (handled_above thr).
Proof.
  split.
  - intros s H. split; [assumption|]. split; [|split; auto].
    exists []. rewrite app_nil_r. split; [reflexivity | constructor].
  - intros s1 s2 s3 H12 H23 H1.
    destruct (H12 H1) as (T2 & (n2 & E2 & F2) & Hh2 & Hm2).
    destruct (H23 T2) as (T3 & (n3 & E3 & F3) & Hh3 & Hm3).
    split; [assumption|]. split; [|split].
    + exists (n2 ++ n3). rewrite E3, E2, app_assoc. split; [reflexivity|].
      apply Forall_app; auto.
    + intros d Hd. destruct (Hh3 d Hd) as [Hd2|]; auto.
    + intros k d Hd. destruct (Hm3 k d Hd) as [Hd2|]; auto.
Qed.

(** A step that adds no effect and changes neither history nor map. *)
Lemma quiet_handled_above thr s s' :
  threshold (engine s') = threshold (engine s) ->
  effects s' = effects s ->
  detectionHistory (engine s') = detectionHistory (engine s) ->
  detectedObjects (engine s') = detectedObjects (engine s) ->
  handled_above thr s s'.
Proof.
  intros Ht He Hh Hm H. rewrite Ht, He, Hh, Hm.
  split; [assumption|]. split; [|split; auto].
  exists []. rewrite app_nil_r. split; [reflexivity | constructor].
Qed.

Lemma same_but_ids_handled_above thr s s' :
  same_but_ids s s' -> handled_above thr s s'.
Proof.
  intros (_&_&_&Ht&Hm&Hh&He&_). now apply quiet_handled_above.
Qed.

(** A step that emits one effect about a detection scoring enough. *)
Lemma emit_handled_above thr eff :
  score_ok thr (effect_score eff) -> steps (handled_above thr) (emit eff).
Proof.
  intros Hok s H. run_m. split; [assumption|]. split; [|split; auto].
  exists [eff]. split; [reflexivity|]. constructor; [assumption | constructor].
Qed.

Ltac prim_quiet :=
  let s := fresh "s" in
  intros s; apply quiet_handled_above; reflexivity.

Lemma in_tail {A} (a : A) l : In a (tail l) -> In a l.
Proof. destruct l; cbn; auto. Qed.

Lemma storeDetection_handled_above thr d :
  (thr <= confidence d)%Q -> steps (handled_above thr) (storeDetection d).
Proof.
  intros Hd s H.
  destruct (storeDetection_history d s) as [t Ht].
  split; [|split; [|split]].
  - rewrite <- H. unfold storeDetection, storeKey.
    destruct (id d) as [i|]; [destruct (i =? 0)|]; run_m;
      match goal with |- context [if ?c then _ else _] => destruct c end;
      reflexivity.
  - exists []. rewrite app_nil_r. split; [|constructor].
    unfold storeDetection, storeKey.
    destruct (id d) as [i|]; [destruct (i =? 0)|]; run_m;
      match goal with |- context [if ?c then _ else _] => destruct c end;
      reflexivity.
  - intros d' Hd'. rewrite Ht in Hd'. cbv zeta in Hd'.
    assert (Hin : In d' (detectionHistory (engine s) ++ [set_timestamp (IsoString t) d])).
    { destruct (100 <? _); [now apply in_tail | assumption]. }
    apply in_app_or in Hin. destruct Hin as [Hin | [<- | []]]; [now left | now right].
  - intros k d'.
    unfold storeDetection, storeKey.
    destruct (id d) as [i|]; [destruct (i =? 0)|]; run_m;
      match goal with |- context [if ?c then _ else _] => destruct c end;
      cbn; rewrite lookup_insert; case_decide; intros Hk;
      first [ injection Hk as <-; now right | now left ].
Qed.

Lemma handleDetection_handled_above thr d :
  (thr <= confidence d)%Q -> steps (handled_above thr) (handleDetection d).
Proof.
  intros Hd.
  unfold handleDetection, updateDetectionDisplay, logDetectionEvent, checkAlerts,
    triggerAlert.
  steps_split ltac:(first [ apply (storeDetection_handled_above thr d Hd)
                          | apply emit_handled_above; exact Hd
                          | prim_quiet ]).
Qed.

(** The body of the [forEach] in [processFrame]. *)
Lemma filter_handled_above thr d :
  steps (handled_above thr)
        (e ← this;
         if JS.ge (confidence d) (threshold e) then handleDetection d else mret tt).
Proof.
  intros s H. unfold exec, mbind, State_bind, this.
  destruct (JS.ge (confidence d) (threshold (engine s))) eqn:E.
  - assert (Hle : (thr <= confidence d)%Q).
    { unfold JS.ge in E. apply Qle_bool_iff in E. now rewrite <- H. }
    exact (handleDetection_handled_above thr d Hle s H).
  - exact (steps_ret (handled_above thr) tt s H).
Qed.

Lemma processFrame_handled_above thr : steps (handled_above thr) processFrame.
Proof.
  unfold processFrame, updatePerformanceMetrics.
  apply steps_bind; [typeclasses eauto | prim_quiet | intros _].
  apply steps_bind; [typeclasses eauto | | intros detections].
  { apply (steps_weaken same_but_ids); [apply same_but_ids_handled_above|].
    apply simulateDetections_same_but_ids. }
  apply steps_bind; [typeclasses eauto | | intros _].
  { apply steps_forEach; [typeclasses eauto|]. intros d _. apply filter_handled_above. }
  apply steps_bind; [typeclasses eauto | prim_quiet | intros e].
  apply emit_handled_above. exact I.
Qed.

(** C3.  Whatever the frame and the threshold, everything that
    [processFrame] hands on scores at least the current threshold: each
    effect about a detection that it emits (display event, log line,
    alert), each entry it adds to the history and each entry it puts in the
    map of detected objects. *)
Theorem C3_handled_detections_reach_threshold :
  forall s,
    let thr := threshold (engine s) in
    let s' := exec processFrame s in
    (exists new, effects s' = effects s ++ new /\
                 Forall (fun eff => score_ok thr (effect_score eff)) new) /\
    (forall d, In d (detectionHistory (engine s')) ->
               In d (detectionHistory (engine s)) \/ (thr <= confidence d)%Q) /\
    (forall k d, detectedObjects (engine s') !! k = Some d ->
                 detectedObjects (engine s) !! k = Some d \/ (thr <= confidence d)%Q).
Proof.
  intros s thr s'.
  destruct (processFrame_handled_above thr s eq_refl) as (_ & He & Hh & Hm).
  auto.
Qed.

(** ** Identifier allocation *)

Lemma exec_bind {S A B} (m : State S A) (f : A -> State S B) s :
  exec (m ≫= f) s = exec (f (eval m s)) (exec m s).
Proof. unfold exec, eval, mbind, State_bind. destruct (m s). reflexivity. Qed.

Lemma eval_bind {S A B} (m : State S A) (f : A -> State S B) s :
  eval (m ≫= f) s = eval (f (eval m s)) (exec m s).
Proof. unfold exec, eval, mbind, State_bind. destruct (m s). reflexivity. Qed.

Lemma incr_ge n : n <= JS.incr n.
Proof. unfold JS.incr. destruct (n <? JS.two53); lia. Qed.

Lemma incr_exact n : JS.incr n < JS.two53 -> JS.incr n = n + 1.
Proof.
  unfold JS.incr. destruct (n <? JS.two53) eqn:E; [reflexivity|].
  apply Z.ltb_ge in E. lia.
Qed.

Lemma ids_cons d ds :
  ids (d :: ds) = match id d with Some i => i :: ids ds | None => ids ds end.
Proof. reflexivity. Qed.

(** What [generateDetection] does with the counter: with tracking on, the
    detection takes the counter's value and the counter moves on; with
    tracking off, the detection has no identifier. *)
Lemma generateDetection_id cfg s :
  id (eval (generateDetection cfg) s) =
    (if trackingEnabled (engine s) then Some (trackingId (engine s)) else None) /\
  trackingId (engine (exec (generateDetection cfg) s)) =
    (if trackingEnabled (engine s) then JS.incr (trackingId (engine s))
     else trackingId (engine s)) /\
  trackingEnabled (engine (exec (generateDetection cfg) s)) =
    trackingEnabled (engine s).
Proof.
  unfold generateDetection, generateBoundingBox, getTrackingId. run_on s.
  match goal with |- context [if ?b then _ else _] => destruct b end;
    repeat split.
Qed.

Lemma generateDetections_ids n cfg : forall s,
  let ds := eval (generateDetections n cfg) s in
  let s' := exec (generateDetections n cfg) s in
  trackingEnabled (engine s') = trackingEnabled (engine s) /\
  trackingId (engine s) <= trackingId (engine s') /\
  (trackingEnabled (engine s) = true -> Forall (fun d => is_Some (id d)) ds) /\
  (trackingId (engine s') < JS.two53 ->
   Forall (fun i => trackingId (engine s) <= i < trackingId (engine s')) (ids ds) /\
   StronglySorted Z.lt (ids ds)).
Proof.
  induction n as [|n IH]; intros s; cbn [generateDetections].
  - cbn. repeat split; try constructor; lia.
  - rewrite exec_bind, eval_bind, exec_bind, eval_bind.
    set (d := eval (generateDetection cfg) s).
    set (s1 := exec (generateDetection cfg) s).
    destruct (generateDetection_id cfg s) as (Hid & Htid & Hen).
    fold d in Hid. fold s1 in Htid, Hen.
    specialize (IH s1).
    set (ds := eval (generateDetections n cfg) s1) in *.
    set (s2 := exec (generateDetections n cfg) s1) in *.
    cbv zeta in IH. destruct IH as (Hen2 & Hle & Hsome & Hids).
    change (exec (mret (d :: ds)) s2) with s2.
    change (eval (mret (d :: ds)) s2) with (d :: ds).
    cbv zeta.
    assert (Hle1 : trackingId (engine s) <= trackingId (engine s1)).
    { rewrite Htid. destruct (trackingEnabled (engine s)); [apply incr_ge | lia]. }
    split; [congruence|]. split; [lia|]. split.
    + intros Ht. constructor.
      * rewrite Hid, Ht. eauto.
      * apply Hsome. congruence.
    + intros Hlt. destruct (Hids Hlt) as (Hall & Hsorted).
      rewrite ids_cons, Hid.
      destruct (trackingEnabled (engine s)) eqn:Ht.
      * assert (Hs1 : trackingId (engine s1) = trackingId (engine s) + 1).
        { rewrite Htid. apply incr_exact. rewrite <- Htid. lia. }
        split.
        -- constructor; [lia|].
           eapply Forall_impl; [exact Hall|]. cbn. intros i Hi. lia.
        -- constructor; [assumption|].
           eapply Forall_impl; [exact Hall|]. cbn. intros i Hi. lia.
      * split; [|assumption].
        eapply Forall_impl; [exact Hall|]. cbn. intros i Hi. lia.
Qed.

Lemma simulateDetections_ids s :
  let ds := eval simulateDetections s in
  let s' := exec simulateDetections s in
  trackingEnabled (engine s') = trackingEnabled (engine s) /\
  trackingId (engine s) <= trackingId (engine s') /\
  (trackingEnabled (engine s) = true -> Forall (fun d => is_Some (id d)) ds) /\
  (trackingId (engine s') < JS.two53 ->
   Forall (fun i => trackingId (engine s) <= i < trackingId (engine s')) (ids ds) /\
   StronglySorted Z.lt (ids ds)).
Proof.
  unfold simulateDetections.
  rewrite !exec_bind, !eval_bind.
  change (eval this s) with (engine s). change (exec this s) with s.
  set (s1 := exec Math_random s).
  destruct (JS.gt (eval Math_random s) (8 # 10)).
  - rewrite !exec_bind, !eval_bind.
    set (s2 := exec Math_random s1).
    destruct (getModelConfig (currentModel (engine s))) as [config| |].
    + apply (generateDetections_ids _ config s2).
    + cbn. repeat split; try constructor; lia.
    + cbn. repeat split; try constructor; lia.
  - cbn. repeat split; try constructor; lia.
Qed.

#[local] Instance counter_grows_preorder : PreOrder counter_grows.
Proof.
  split; unfold counter_grows; [intros s | intros s1 s2 s3]; lia.
Qed.

Ltac prim_counter :=
  let s := fresh "s" in
  intros s; unfold counter_grows; run_m;
  try destruct (rafPending s) eqn:?; try destruct (timers s) eqn:?; cbn; lia.

Lemma simulateDetections_counter : steps counter_grows simulateDetections.
Proof. intros s. apply (simulateDetections_ids s). Qed.

Lemma processFrame_counter : steps counter_grows processFrame.
Proof.
  unfold processFrame, updatePerformanceMetrics, handleDetection, storeDetection,
    storeKey, updateDetectionDisplay, logDetectionEvent, checkAlerts, triggerAlert.
  steps_split ltac:(first [ apply simulateDetections_counter | prim_counter ]).
Qed.

(** Every input but the resetting ones leaves the counter where it is or
    further. *)
Lemma handle_counter i : resets i = false -> steps counter_grows (handle i).
Proof.
  intros Hi.
  destruct i as [| |m|c|[|]| | | |]; try discriminate;
    unfold handle, start, setModel, modelLoaded, setConfidence, enableTracking,
      startDetectionLoop, updatePerformanceMetrics, showModelLoading,
      hideModelLoading, updateModelPerformance; cbn [negb].
  all: steps_split ltac:(first [ apply processFrame_counter | prim_counter ]).
Qed.

Lemma run_counter inputs :
  Forall (fun i => resets i = false) inputs -> steps counter_grows (run inputs).
Proof.
  intros Hin. unfold run. apply steps_forEach; [typeclasses eauto|].
  intros i Hi. apply handle_counter.
  rewrite Forall_forall in Hin. apply Hin. now apply list_elem_of_In.
Qed.

Lemma StronglySorted_app_lt (l1 l2 : list Z) (m : Z) :
  StronglySorted Z.lt l1 -> StronglySorted Z.lt l2 ->
  Forall (fun i => i < m) l1 -> Forall (fun i => m <= i) l2 ->
  StronglySorted Z.lt (l1 ++ l2).
Proof.
  intros H1 H2 Hlt Hge. induction H1 as [|a l1 Hs IH Ha]; cbn; [assumption|].
  inversion Hlt as [|? ? Ham Hlt']; subst.
  constructor; [now apply IH|].
  apply Forall_app. split; [assumption|].
  eapply Forall_impl; [exact Hge|]. cbn. intros i Hi. lia.
Qed.

(** C2, as amended.  Between two resets the identifiers only go up: take
    the detections of one frame, then any inputs that are not a stop, a
    destroy or a switching-off of tracking, then the detections of a later
    frame; as long as the counter is still below 2^53, the identifiers
    handed out, in order, are strictly increasing. *)
Theorem C2_ids_increase_between_resets :
  forall s inputs,
    Forall (fun i => resets i = false) inputs ->
    let ds1 := eval simulateDetections s in
    let s1 := exec simulateDetections s in
    let s2 := exec (run inputs) s1 in
    let ds2 := eval simulateDetections s2 in
    let s3 := exec simulateDetections s2 in
    trackingId (engine s3) < JS.two53 ->
    StronglySorted Z.lt (ids ds1 ++ ids ds2).
Proof.
  intros s inputs Hin ds1 s1 s2 ds2 s3 Hlt.
  destruct (simulateDetections_ids s) as (_ & _ & _ & H1).
  destruct (simulateDetections_ids s2) as (_ & Hle23 & _ & H2).
  fold s1 ds1 in H1. fold s3 ds2 in H2, Hle23.
  assert (Hle12 : trackingId (engine s1) <= trackingId (engine s2))
    by apply (run_counter inputs Hin s1).
  destruct (H2 Hlt) as (Hall2 & Hsorted2).
  destruct H1 as (Hall1 & Hsorted1); [lia|].
  apply (StronglySorted_app_lt _ _ (trackingId (engine s1))); auto.
  - eapply Forall_impl; [exact Hall1|]. cbn. intros i Hi. lia.
  - eapply Forall_impl; [exact Hall2|]. cbn. intros i Hi. lia.
Qed.

(** Every input but the resetting ones leaves tracking switched on. *)
Ltac prim_tracking :=
  let s := fresh "s" in
  intros s; unfold keeps, tracking_on; run_m;
  try destruct (rafPending s) eqn:?; try destruct (timers s) eqn:?; cbn; auto.

Lemma simulateDetections_tracking : steps (keeps tracking_on) simulateDetections.
Proof.
  intros s. unfold keeps, tracking_on.
  destruct (simulateDetections_ids s) as (H & _). cbv zeta in H. congruence.
Qed.

Lemma processFrame_tracking : steps (keeps tracking_on) processFrame.
Proof.
  unfold processFrame, updatePerformanceMetrics, handleDetection, storeDetection,
    storeKey, updateDetectionDisplay, logDetectionEvent, checkAlerts, triggerAlert.
  steps_split ltac:(first [ apply simulateDetections_tracking | prim_tracking ]).
Qed.

Lemma handle_tracking i : resets i = false -> steps (keeps tracking_on) (handle i).
Proof.
  intros Hi.
  destruct i as [| |m|c|[|]| | | |]; try discriminate;
    unfold handle, start, setModel, modelLoaded, setConfidence, enableTracking,
      startDetectionLoop, updatePerformanceMetrics, showModelLoading,
      hideModelLoading, updateModelPerformance; cbn [negb].
  all: steps_split ltac:(first [ apply processFrame_tracking | prim_tracking ]).
Qed.

Lemma run_tracking inputs :
  Forall (fun i => resets i = false) inputs -> steps (keeps tracking_on) (run inputs).
Proof.
  intros Hin. unfold run. apply steps_forEach; [typeclasses eauto|].
  intros i Hi. apply handle_tracking.
  rewrite Forall_forall in Hin. apply Hin. now apply list_elem_of_In.
Qed.

(** C1, as amended.  With tracking on, the detections of two frames do
    not share an identifier as long as no stop, no destroy and no
    switching-off of tracking comes between them: whatever else happens
    in between (further frames, model changes, timers, ...), each
    detection of either frame has an identifier, and each of the later
    frame's is larger than each of the earlier frame's (while the counter
    is below 2^53), whatever the classes and the boxes. *)
Theorem C1_later_frames_get_new_ids :
  forall s inputs,
    trackingEnabled (engine s) = true ->
    Forall (fun i => resets i = false) inputs ->
    let ds1 := eval simulateDetections s in
    let s1 := exec simulateDetections s in
    let s2 := exec (run inputs) s1 in
    let ds2 := eval simulateDetections s2 in
    let s3 := exec simulateDetections s2 in
    trackingId (engine s3) < JS.two53 ->
    forall d1 d2, In d1 ds1 -> In d2 ds2 ->
      exists i1 i2, id d1 = Some i1 /\ id d2 = Some i2 /\ i1 < i2.
Proof.
  intros s inputs Hen Hin ds1 s1 s2 ds2 s3 Hlt d1 d2 Hd1 Hd2.
  destruct (simulateDetections_ids s) as (Hen1 & _ & Hsome1 & H1).
  destruct (simulateDetections_ids s2) as (_ & Hle23 & Hsome2 & H2).
  fold s1 ds1 in Hen1, Hsome1, H1. fold s3 ds2 in Hle23, Hsome2, H2.
  assert (Hen2 : trackingEnabled (engine s2) = true).
  { apply (run_tracking inputs Hin s1). unfold tracking_on. congruence. }
  assert (Hle12 : trackingId (engine s1) <= trackingId (engine s2))
    by apply (run_counter inputs Hin s1).
  specialize (Hsome1 Hen). specialize (Hsome2 Hen2).
  rewrite Forall_forall in Hsome1, Hsome2.
  destruct (Hsome1 d1) as [i1 Hi1]; [now apply list_elem_of_In|].
  destruct (Hsome2 d2) as [i2 Hi2]; [now apply list_elem_of_In|].
  exists i1, i2. split; [assumption|]. split; [assumption|].
  destruct (H2 Hlt) as (Hall2 & _). destruct H1 as (Hall1 & _); [lia|].
  rewrite Forall_forall in Hall1, Hall2.
  assert (In1 : i1 ∈ ids ds1).
  { unfold ids. apply list_elem_of_omap. exists d1. split; [now apply list_elem_of_In | assumption]. }
  assert (In2 : i2 ∈ ids ds2).
  { unfold ids. apply list_elem_of_omap. exists d2. split; [now apply list_elem_of_In | assumption]. }
  specialize (Hall1 i1 In1). specialize (Hall2 i2 In2). cbn in *. lia.
Qed.

Lemma C2_witness_steady_scene :
  let s := steady_tracking in
  let inputs := [animationFrame; modelChanged "yolov11s"] in
  Forall (fun i => resets i = false) inputs /\
  StronglySorted Z.lt
    (ids (eval simulateDetections s) ++
     ids (eval simulateDetections
            (exec (run inputs) (exec simulateDetections s)))).
Proof.
  split.
  - repeat constructor.
  - apply (C2_ids_increase_between_resets steady_tracking
             [animationFrame; modelChanged "yolov11s"]).
    + repeat constructor.
    + vm_compute. reflexivity.
Defined.

Lemma C1_witness_frames_and_a_model_change :
  let s := steady_tracking in
  let inputs := [startSurveillance; animationFrame; modelChanged "yolov11s";
                 trackingToggled true; timeout] in
  trackingEnabled (engine s) = true /\
  Forall (fun i => resets i = false) inputs /\
  forall d1 d2,
    In d1 (eval simulateDetections s) ->
    In d2 (eval simulateDetections (exec (run inputs) (exec simulateDetections s))) ->
    exists i1 i2, id d1 = Some i1 /\ id d2 = Some i2 /\ i1 < i2.
Proof.
  split; [reflexivity|]. split; [repeat constructor|].
  apply (C1_later_frames_get_new_ids steady_tracking
           [startSurveillance; animationFrame; modelChanged "yolov11s";
            trackingToggled true; timeout]).
  - reflexivity.
  - repeat constructor.
  - vm_compute. reflexivity.
Defined.

(** C1 fails as stated: on the steady scene, with tracking on, two
    successive frames detect the same class at the same box, and the two
    detections carry the identifiers 1 and 2. *)
Lemma C1_same_object_changes_id :
  let s := steady_tracking in
  ~ (forall d1 d2,
       In d1 (eval simulateDetections s) ->
       In d2 (eval simulateDetections (exec simulateDetections s)) ->
       same_object d1 d2 -> id d1 = id d2).
Proof.
  intros s H.
  specialize (H (mkDetection "person" (17500 # 20000)
                   (mkBBox (2200 # 4) (900 # 4) (360 # 2) (540 # 2))
                   (Millis 1000) (Some 1))
                (mkDetection "person" (17500 # 20000)
                   (mkBBox (2200 # 4) (900 # 4) (360 # 2) (540 # 2))
                   (Millis 1001) (Some 2))).
  assert (Hneq : Some 1 = Some 2 -> False) by discriminate.
  apply Hneq. apply H.
  - vm_compute. left. reflexivity.
  - vm_compute. left. reflexivity.
  - split; reflexivity.
Qed.

(** C2 fails as stated: identifiers are handed out again after a reset.
    Switching tracking off and on between two frames restarts the counter,
    and both frames hand out 1; stopping and starting again does the same,
    and the console shows the identifier 1 twice. *)
Lemma C2_ids_reused_after_reset :
  let s := steady_tracking in
  ~ StronglySorted Z.lt
      (ids (eval simulateDetections s) ++
       ids (eval simulateDetections
              (exec (run [trackingToggled false; trackingToggled true])
                    (exec simulateDetections s)))) /\
  ~ StronglySorted Z.lt
      (logged_ids (effects
         (exec (run [trackingToggled true; startSurveillance;
                     stopSurveillance; startSurveillance])
               (initial steady_world)))).
Proof.
  split; intros H; vm_compute in H;
    inversion H as [|? ? _ Hall]; subst;
    inversion Hall as [|? ? Hlt _]; subst; discriminate Hlt.
Qed.

(** ** Runs that are related *)

Section Respects.
Context {S : Type} (E : S -> S -> Prop).

Lemma respects_ret {A} (a : A) : respects E (mret a).
Proof. intros s1 s2 H. split; [reflexivity | exact H]. Qed.

Lemma respects_bind {A B} (m : State S A) (f : A -> State S B) :
  respects E m -> (forall a, respects E (f a)) -> respects E (m ≫= f).
Proof.
  intros Hm Hf s1 s2 H. rewrite !exec_bind, !eval_bind.
  destruct (Hm s1 s2 H) as [Ha Hs]. rewrite Ha. now apply Hf.
Qed.

Lemma respects_forEach {A} (l : list A) (f : A -> State S unit) :
  (forall a, respects E (f a)) -> respects E (forEach l f).
Proof.
  intros Hf. induction l as [|a l IH]; cbn [forEach].
  - apply respects_ret.
  - apply respects_bind; [apply Hf | intros _; apply IH].
Qed.

End Respects.

Ltac respects_split leaf :=
  repeat (intros; lazymatch goal with
  | |- respects _ (mret _) => apply respects_ret
  | |- respects _ (mbind _ _) => apply respects_bind
  | |- respects _ (forEach _ _) => apply respects_forEach
  | |- respects _ (let _ := _ in _) => cbv zeta
  | |- respects _ (if ?b then _ else _) => destruct b
  | |- respects _ (match ?x with _ => _ end) => destruct x
  | |- _ => leaf
  end).

(** ** Switching the model *)

Lemma getModelConfig_unknown name :
  JS.get configs name = JS.Undefined ->
  getModelConfig name = JS.get configs "yolov11n".
Proof. intros H. unfold getModelConfig. now rewrite H. Qed.

(** C8, as amended.  A switch to a model that the table of configurations
    does not know signals nothing: [setModel] returns normally, records
    the name as the current model, shows the loading indicator and starts
    its timer; the loop is left as it was, and from then on the engine
    works with the configuration of 'yolov11n', whichever model was active
    before. *)
Theorem C8_unknown_model_falls_back_to_yolov11n :
  forall name s,
    JS.get configs name = JS.Undefined ->
    let r := call (setModel name) s in
    fst r = Returns tt /\
    currentModel (engine (snd r)) = name /\
    getModelConfig (currentModel (engine (snd r))) =
      JS.Own (mkModelConfig ["person"; "vehicle"]%string (94 # 100) "fast" 3) /\
    effects (snd r) = effects s ++ [LogSwitched name; Dispatch (modelLoading true)] /\
    timers (snd r) = timers s ++ [name] /\
    isActive (engine (snd r)) = isActive (engine s) /\
    rafPending (snd r) = rafPending s.
Proof.
  intros name s H r. subst r. unfold call, setModel, showModelLoading. run_m.
  rewrite (getModelConfig_unknown name H), <- app_assoc.
  repeat split.
Qed.

Lemma C8_witness_yolov8x :
  let s := exec (setModel "yolov11m") (initial steady_world) in
  let r := call (setModel "yolov8x") s in
  fst r = Returns tt /\
  currentModel (engine (snd r)) = "yolov8x"%string /\
  getModelConfig (currentModel (engine (snd r))) =
    JS.Own (mkModelConfig ["person"; "vehicle"]%string (94 # 100) "fast" 3) /\
  effects (snd r) = effects s ++ [LogSwitched "yolov8x"; Dispatch (modelLoading true)] /\
  timers (snd r) = timers s ++ ["yolov8x"%string] /\
  isActive (engine (snd r)) = isActive (engine s) /\
  rafPending (snd r) = rafPending s.
Proof.
  apply (C8_unknown_model_falls_back_to_yolov11n "yolov8x"
           (exec (setModel "yolov11m") (initial steady_world))).
  reflexivity.
Defined.

(** C8 fails as stated: with 'yolov11m' active, a switch to the unknown
    'yolov8x' returns normally instead of signalling a ModelLoadError; the
    configuration then in use is neither the previous one nor that of an
    adapter without detections (the next frame of the steady page reports
    one). *)
Lemma C8_no_error_and_no_fallback_to_previous :
  let s := exec (setModel "yolov11m") (initial steady_world) in
  let r := call (setModel "yolov8x") s in
  fst r <> Throws "ModelLoadError" "yolov8x" /\
  getModelConfig (currentModel (engine (snd r))) <>
    getModelConfig (currentModel (engine s)) /\
  eval simulateDetections (snd r) <> [].
Proof.
  split; [discriminate|]. split.
  - vm_compute. discriminate.
  - vm_compute. discriminate.
Qed.

(** ** Display colours (video handler) *)



(** ** Track removal (tracker) *)

Lemma age_unmatched_live cfg t :
  Tracker.state t = Tracker.Confirmed \/ Tracker.state t = Tracker.Lost ->
  Tracker.state (Tracker.age_unmatched cfg t) =
    (if (Tracker.track_buffer cfg <? S (Tracker.time_since_update t))%nat
     then Tracker.Removed else Tracker.Lost) /\
  Tracker.time_since_update (Tracker.age_unmatched cfg t) =
    S (Tracker.time_since_update t).
Proof.
  unfold Tracker.age_unmatched. intros [H | H]; rewrite H; cbn; auto.
Qed.

Lemma age_unmatched_removed cfg t :
  Tracker.state t = Tracker.Removed -> Tracker.age_unmatched cfg t = t.
Proof. unfold Tracker.age_unmatched. intros H. now rewrite H. Qed.

Lemma after_misses_state cfg t k :
  Tracker.live t = true ->
  let t' := Tracker.after_misses cfg k (Tracker.update_matched t) in
  ((k <= Tracker.track_buffer cfg)%nat ->
     Tracker.state t' = (if (k =? 0)%nat then Tracker.Confirmed else Tracker.Lost) /\
     Tracker.time_since_update t' = k) /\
  ((Tracker.track_buffer cfg < k)%nat -> Tracker.state t' = Tracker.Removed).
Proof.
  intros Hlive. cbv zeta. unfold Tracker.after_misses.
  induction k as [|k IH]; [cbn [Nat.iter] | rewrite Nat.iter_succ].
  - split; [|lia]. intros _. cbn.
    unfold Tracker.update_matched, Tracker.live in *.
    destruct (Tracker.state t); try discriminate; auto.
  - destruct IH as (IHle & IHgt).
    set (t' := Nat.iter k (Tracker.age_unmatched cfg) (Tracker.update_matched t)) in *.
    destruct (Nat.le_gt_cases k (Tracker.track_buffer cfg)) as [Hle | Hgt].
    + destruct (IHle Hle) as (Hst & Htsu).
      destruct (age_unmatched_live cfg t') as (Hst' & Htsu').
      { rewrite Hst. destruct (k =? 0)%nat; auto. }
      rewrite Htsu in Hst', Htsu'. rewrite Hst', Htsu'. cbn [Nat.eqb].
      destruct (Nat.ltb_spec (Tracker.track_buffer cfg) (S k)); split; intros; auto; lia.
    + rewrite (age_unmatched_removed cfg t' (IHgt Hgt)).
      split; [lia|]. intros _. exact (IHgt Hgt).
Qed.

(** C5, as amended.  A track matched at frame f and not matched again is
    still live at every frame up to f + track_buffer, and is Removed from
    frame f + track_buffer + 1 on: removal happens when time-since-update
    exceeds the buffer, one frame after it reaches it. *)
Theorem C5_removed_one_frame_after_the_buffer :
  forall cfg t k,
    Tracker.live t = true ->
    Tracker.live (Tracker.after_misses cfg k (Tracker.update_matched t)) =
      (k <=? Tracker.track_buffer cfg)%nat.
Proof.
  intros cfg t k Hlive.
  destruct (after_misses_state cfg t k Hlive) as (Hle & Hgt).
  unfold Tracker.live.
  destruct (Nat.leb_spec k (Tracker.track_buffer cfg)) as [H | H].
  - destruct (Hle H) as [-> _]. now destruct (k =? 0)%nat.
  - now rewrite (Hgt H).
Qed.

Lemma C5_witness_frame_31 :
  Tracker.live Tracker.sample_track = true /\
  Tracker.live (Tracker.after_misses Tracker.bytetrack_yaml 31
                  (Tracker.update_matched Tracker.sample_track)) = false.
Proof.
  split; [reflexivity|].
  apply (C5_removed_one_frame_after_the_buffer Tracker.bytetrack_yaml
           Tracker.sample_track 31).
  reflexivity.
Defined.

(** C5 fails as stated: with track_buffer = 30, the track matched at
    frame f is not Removed at frame f + 30; it is Lost, and still live. *)
Lemma C5_still_live_at_the_buffer :
  let t := Tracker.after_misses Tracker.bytetrack_yaml 30
             (Tracker.update_matched Tracker.sample_track) in
  ~ (Tracker.state t = Tracker.Removed) /\
  Tracker.state t = Tracker.Lost /\ Tracker.live t = true.
Proof.
  cbv zeta. vm_compute. split; [discriminate|]. split; reflexivity.
Qed.

(** * Further properties of the detection engine *)

(** ** What a frame generates *)

Lemma floor_bounds q a b :
  (inject_Z a <= q)%Q -> (q < inject_Z b)%Q -> a <= JS.floor q < b.
Proof.
  intros Ha Hb. unfold JS.floor. split.
  - rewrite <- (Qfloor_Z a). now apply Qfloor_resp_le.
  - rewrite Zlt_Qlt. eapply Qle_lt_trans; [apply Qfloor_le | exact Hb].
Qed.

(** [arr[Math.floor(r * arr.length)]] is an element of a non-empty
    array when [r] is in [0, 1). *)
Lemma index_floor_in (arr : list string) (r : Q) :
  arr <> [] -> (0 <= r)%Q -> (r < 1)%Q ->
  In (JS.index arr (JS.floor (r * inject_Z (Z.of_nat (length arr))))) arr.
Proof.
  intros Hne H0 H1.
  assert (Hlen : (0 < length arr)%nat) by (destruct arr; [congruence | cbn; lia]).
  assert (HlenQ : (0 < inject_Z (Z.of_nat (length arr)))%Q).
  { change 0%Q with (inject_Z 0). rewrite <- Zlt_Qlt. lia. }
  destruct (floor_bounds (r * inject_Z (Z.of_nat (length arr))) 0
                         (Z.of_nat (length arr))) as [Hlo Hhi].
  - change (inject_Z 0) with 0%Q. nra.
  - nra.
  - unfold JS.index. destruct (Z.ltb_spec (JS.floor (r * inject_Z (Z.of_nat (length arr)))) 0);
      [lia|].
    apply nth_In. lia.
Qed.

(** The detection that [generateDetection] builds, draw by draw, and what
    it leaves of the page and of the threshold. *)
Lemma generateDetection_eval cfg s :
  let w := world s in
  let r := fun k => random w (rcur w + k)%nat in
  let d := eval (generateDetection cfg) s in
  let s' := exec (generateDetection cfg) s in
  class d = JS.index (classes cfg)
              (JS.floor (r 0%nat * inject_Z (Z.of_nat (length (classes cfg))))) /\
  confidence d = (r 1%nat * (1 - threshold (engine s)) + threshold (engine s))%Q /\
  width (bbox d) = (r 2%nat * 200 + 80)%Q /\
  height (bbox d) = (r 3%nat * 300 + 120)%Q /\
  x (bbox d) = (r 4%nat * (1280 - width (bbox d)))%Q /\
  y (bbox d) = (r 5%nat * (720 - height (bbox d)))%Q /\
  random (world s') = random w /\
  rcur (world s') = (rcur w + 6)%nat /\
  threshold (engine s') = threshold (engine s) /\
  currentModel (engine s') = currentModel (engine s).
Proof.
  cbv zeta. unfold generateDetection, generateBoundingBox, getTrackingId.
  destruct s as [[? trk ? ? ? ? ?] [rnd rc ? ? ?] ? ? ? ?].
  lazy beta iota zeta delta
    [exec eval mbind State_bind mret State_ret this update emit
     Math_random Date_now with_world fst snd
     engine world effects rafPending timers framesProcessed
     random rcur clock ccur videoHandler
     isActive trackingEnabled currentModel threshold detectedObjects
     trackingId detectionHistory set_trackingId
     class confidence bbox x y width height].
  rewrite <- !plus_n_Sm, <- !plus_n_O.
  destruct trk; repeat split.
Qed.

Lemma generateDetections_forall n cfg (Q : Detection -> Prop) rnd thr :
  (forall s, random (world s) = rnd -> threshold (engine s) = thr ->
             Q (eval (generateDetection cfg) s)) ->
  forall s, random (world s) = rnd -> threshold (engine s) = thr ->
    Forall Q (eval (generateDetections n cfg) s) /\
    length (eval (generateDetections n cfg) s) = n.
Proof.
  intros HQ. induction n as [|n IH]; intros s Hr Ht; cbn [generateDetections].
  - split; [constructor | reflexivity].
  - rewrite eval_bind, eval_bind.
    destruct (generateDetection_eval cfg s) as (_&_&_&_&_&_&Hr'&_&Ht'&_).
    cbv zeta in Hr', Ht'.
    destruct (IH (exec (generateDetection cfg) s)) as [Hall Hlen]; [congruence..|].
    change (eval (mret ?l) ?t) with l. split.
    + constructor; [now apply HQ | exact Hall].
    + cbn [length]. now rewrite Hlen.
Qed.

(** The two ways a frame can go: no detection, or the loop of
    [generateDetection] for a registered configuration, started after the
    frame's first two draws. *)
Lemma simulateDetections_cases s :
  eval simulateDetections s = [] \/
  exists cfg s2,
    getModelConfig (currentModel (engine s)) = JS.Own cfg /\
    random (world s2) = random (world s) /\
    threshold (engine s2) = threshold (engine s) /\
    eval simulateDetections s =
      eval (generateDetections
              (Z.to_nat (JS.floor (random (world s) (Datatypes.S (rcur (world s)))
                                   * inject_Z (maxDetections cfg)) + 1))
              cfg) s2.
Proof.
  unfold simulateDetections. rewrite !eval_bind.
  change (eval this s) with (engine s). change (exec this s) with s.
  destruct (JS.gt (eval Math_random s) (8 # 10)); [|now left].
  rewrite !eval_bind.
  destruct (getModelConfig (currentModel (engine s))) as [cfg| |]; [|now left..].
  right. exists cfg, (exec Math_random (exec Math_random s)).
  repeat split.
Qed.

(** Every configuration that [getModelConfig] can return as a table
    entry allows at least one detection and has a vocabulary, none of
    whose words (nor the printed [undefined]) names a member of
    [Object.prototype]. *)
Lemma getModelConfig_registered name cfg :
  getModelConfig name = JS.Own cfg ->
  0 < maxDetections cfg /\ classes cfg <> [] /\
  forall i, plain_class (JS.index (classes cfg) i) = true.
Proof.
  unfold getModelConfig, JS.get, configs. cbn [JS.own_property].
  assert (Hidx : forall l, (forall k, plain_class (nth k l "undefined"%string) = true) ->
                           forall i, plain_class (JS.index l i) = true).
  { intros l Hl i. unfold JS.index. destruct (i <? 0); [reflexivity | apply Hl]. }
  repeat match goal with
         | |- context [if String.eqb ?a ?b then _ else _] => destruct (String.eqb a b)
         | |- context [if existsb ?f ?l then _ else _] => destruct (existsb f l)
         end; cbn [JS.or]; intros H; try discriminate; injection H as <-;
    (split; [reflexivity|]); (split; [discriminate|]); apply Hidx; intros k;
    do 5 (destruct k as [|k]; [reflexivity|]); reflexivity.
Qed.

Lemma draws_in_unit_at w k :
  draws_in_unit w -> (0 <= random w k)%Q /\ (random w k < 1)%Q.
Proof. intros H. apply H. Qed.

(** X1.  With [Math.random()] in [0, 1), every box that a frame
    generates lies inside the 1280 x 720 frame, 80 to 280 wide and 120 to
    420 high. *)
Theorem generated_boxes_fit_the_canvas :
  forall s,
    draws_in_unit (world s) ->
    Forall (fun d => in_canvas (bbox d)) (eval simulateDetections s).
Proof.
  intros s Hd.
  destruct (simulateDetections_cases s) as [-> | (cfg & s2 & _ & Hr & Ht & ->)];
    [constructor|].
  apply (generateDetections_forall _ cfg _ (random (world s)) (threshold (engine s)));
    [|assumption..].
  intros s0 Hr0 _.
  destruct (generateDetection_eval cfg s0) as (_&_&Hw&Hh&Hx&Hy&_). cbv zeta in *.
  rewrite Hr0 in *.
  destruct (Hd (rcur (world s0) + 2)%nat), (Hd (rcur (world s0) + 3)%nat),
           (Hd (rcur (world s0) + 4)%nat), (Hd (rcur (world s0) + 5)%nat).
  unfold in_canvas. rewrite Hx, Hy, Hw, Hh.
  repeat split; nra.
Qed.

Lemma steady_world_in_unit : draws_in_unit steady_world.
Proof.
  intros n. unfold steady_world. cbn [random].
  pose proof (Nat.mod_upper_bound n 8 ltac:(lia)) as Hk.
  destruct (n mod 8)%nat as [|k]; [split; [unfold Qle; cbn; lia | reflexivity]|].
  do 7 (destruct k as [|k]; [split; [unfold Qle; cbn; lia | reflexivity]|]).
  lia.
Qed.

Lemma generated_boxes_fit_the_canvas_witness :
  draws_in_unit (world steady_tracking) /\
  Forall (fun d => in_canvas (bbox d)) (eval simulateDetections steady_tracking).
Proof.
  split; [exact steady_world_in_unit|].
  apply (generated_boxes_fit_the_canvas steady_tracking).
  exact steady_world_in_unit.
Defined.

(** X2.  With [Math.random()] in [0, 1) and the threshold in [0, 1],
    every detection that a frame generates scores between the threshold
    and 1, so the filter of [processFrame] lets all of them through. *)
Theorem generated_scores_pass_the_filter :
  forall s,
    draws_in_unit (world s) ->
    (0 <= threshold (engine s))%Q -> (threshold (engine s) <= 1)%Q ->
    Forall (fun d => (threshold (engine s) <= confidence d)%Q /\
                     (confidence d <= 1)%Q /\
                     JS.ge (confidence d) (threshold (engine s)) = true)
           (eval simulateDetections s).
Proof.
  intros s Hd H0 H1.
  destruct (simulateDetections_cases s) as [-> | (cfg & s2 & _ & Hr & Ht & ->)];
    [constructor|].
  apply (generateDetections_forall _ cfg _ (random (world s)) (threshold (engine s)));
    [|assumption..].
  intros s0 Hr0 Ht0.
  destruct (generateDetection_eval cfg s0) as (_&Hc&_). cbv zeta in *.
  rewrite Hr0, Ht0 in *.
  destruct (Hd (rcur (world s0) + 1)%nat).
  assert (Hle : (threshold (engine s) <= confidence (eval (generateDetection cfg) s0))%Q)
    by (rewrite Hc; nra).
  split; [exact Hle|]. split; [rewrite Hc; nra|].
  unfold JS.ge. now apply Qle_bool_iff.
Qed.

Lemma generated_scores_pass_the_filter_witness :
  draws_in_unit (world steady_tracking) /\
  Forall (fun d => (threshold (engine steady_tracking) <= confidence d)%Q /\
                   (confidence d <= 1)%Q /\
                   JS.ge (confidence d) (threshold (engine steady_tracking)) = true)
         (eval simulateDetections steady_tracking).
Proof.
  split; [exact steady_world_in_unit|].
  apply (generated_scores_pass_the_filter steady_tracking).
  - exact steady_world_in_unit.
  - vm_compute. discriminate.
  - vm_compute. discriminate.
Defined.

(** X3.  With [Math.random()] in [0, 1), a frame generates at most
    [maxDetections] detections of the current model's configuration, each
    of a class of that configuration's vocabulary; when the current model
    names a member of [Object.prototype] instead of a configuration, the
    frame generates nothing. *)
Theorem frame_respects_the_model_configuration :
  forall s,
    draws_in_unit (world s) ->
    match getModelConfig (currentModel (engine s)) with
    | JS.Own cfg =>
        Z.of_nat (length (eval simulateDetections s)) <= maxDetections cfg /\
        Forall (fun d => In (class d) (classes cfg)) (eval simulateDetections s)
    | _ => eval simulateDetections s = []
    end.
Proof.
  intros s Hd.
  destruct (simulateDetections_cases s) as [Hnil | (cfg & s2 & Hcfg & Hr & Ht & Heq)].
  - rewrite Hnil. destruct (getModelConfig _) as [cfg| |] eqn:Hcfg; try reflexivity.
    destruct (getModelConfig_registered _ _ Hcfg) as (Hmax & _).
    split; [cbn; lia | constructor].
  - rewrite Hcfg, Heq.
    destruct (getModelConfig_registered _ _ Hcfg) as (Hmax & Hne & _).
    destruct (generateDetections_forall
                (Z.to_nat (JS.floor (random (world s) (Datatypes.S (rcur (world s)))
                                     * inject_Z (maxDetections cfg)) + 1))
                cfg (fun d => In (class d) (classes cfg))
                (random (world s)) (threshold (engine s))) with (s := s2)
      as [Hall Hlen]; try assumption.
    + intros s0 Hr0 _.
      destruct (generateDetection_eval cfg s0) as (Hc&_). cbv zeta in Hc.
      rewrite Hc, Hr0. destruct (Hd (rcur (world s0) + 0)%nat).
      now apply index_floor_in.
    + split; [|exact Hall]. rewrite Hlen.
      destruct (Hd (Datatypes.S (rcur (world s)))) as [Hlo Hhi].
      assert (HmQ : (0 < inject_Z (maxDetections cfg))%Q).
      { change 0%Q with (inject_Z 0). rewrite <- Zlt_Qlt. exact Hmax. }
      destruct (floor_bounds (random (world s) (Datatypes.S (rcur (world s)))
                              * inject_Z (maxDetections cfg)) 0 (maxDetections cfg)).
      * change (inject_Z 0) with 0%Q. nra.
      * nra.
      * lia.
Qed.

Lemma frame_respects_the_model_configuration_witness :
  draws_in_unit (world steady_tracking) /\
  Z.of_nat (length (eval simulateDetections steady_tracking)) <= 3 /\
  Forall (fun d => In (class d) ["person"; "vehicle"]%string)
         (eval simulateDetections steady_tracking).
Proof.
  split; [exact steady_world_in_unit|].
  exact (frame_respects_the_model_configuration steady_tracking steady_world_in_unit).
Defined.

Lemma prototype_member_is_inherited name :
  In name JS.prototype_members -> getModelConfig name = JS.Inherited name.
Proof.
  unfold JS.prototype_members. cbn [In].
  intros H. repeat (destruct H as [<- | H]; [reflexivity|]). destruct H.
Qed.

(** X4.  A switch to a model whose name is that of a member of
    [Object.prototype] ('constructor', 'toString', ...) silences
    detection: the fallback to 'yolov11n' does not apply, and every frame
    generates nothing, whatever the draws. *)
Theorem prototype_named_model_detects_nothing :
  forall name s,
    In name JS.prototype_members ->
    eval simulateDetections (exec (setModel name) s) = [].
Proof.
  intros name s Hin.
  destruct (simulateDetections_cases (exec (setModel name) s))
    as [-> | (cfg & s2 & Hcfg & _)]; [reflexivity|].
  change (currentModel (engine (exec (setModel name) s))) with name in Hcfg.
  rewrite (prototype_member_is_inherited name Hin) in Hcfg. discriminate.
Qed.

Lemma prototype_named_model_detects_nothing_witness :
  In "constructor"%string JS.prototype_members /\
  eval simulateDetections (exec (setModel "constructor") steady_tracking) = [].
Proof.
  split; [left; reflexivity|].
  apply (prototype_named_model_detects_nothing "constructor" steady_tracking).
  left. reflexivity.
Defined.

(** ** Invariants of the running engine *)

(** The rule for a call whose result is known to satisfy [Q]. *)
Lemma steps_bind_with {S A B} (R : S -> S -> Prop) `{!PreOrder R}
    (Q : A -> Prop) (m : State S A) (f : A -> State S B) :
  (forall s, Q (eval m s)) -> steps R m -> (forall a, Q a -> steps R (f a)) ->
  steps R (m ≫= f).
Proof.
  intros HQ Hm Hf s. rewrite exec_bind.
  transitivity (exec m s); [apply Hm | apply Hf, HQ].
Qed.

Lemma run_steps {R : St -> St -> Prop} `{!PreOrder R} (P : Input -> Prop) inputs :
  (forall i, P i -> steps R (handle i)) -> Forall P inputs -> steps R (run inputs).
Proof.
  intros Hh Hin. unfold run. apply steps_forEach; [typeclasses eauto|].
  intros i Hi. apply Hh. rewrite Forall_forall in Hin. apply Hin.
  now apply list_elem_of_In.
Qed.







(** The identifiers of a frame lie between the counter before the frame
    and the counter after it. *)
Lemma generateDetections_id_bounds n cfg : forall s,
  Forall (fun d => forall i, id d = Some i ->
            trackingId (engine s) <= i <=
            trackingId (engine (exec (generateDetections n cfg) s)))
         (eval (generateDetections n cfg) s).
Proof.
  induction n as [|n IH]; intros s; cbn [generateDetections]; [constructor|].
  rewrite exec_bind, eval_bind, exec_bind, eval_bind.
  destruct (generateDetection_id cfg s) as (Hid & Htid & _).
  set (s1 := exec (generateDetection cfg) s) in *.
  specialize (IH s1).
  destruct (generateDetections_ids n cfg s1) as (_ & Hle & _).
  change (exec (mret ?l) ?t) with t. change (eval (mret ?l) ?t) with l.
  assert (Hle1 : trackingId (engine s) <= trackingId (engine s1)).
  { rewrite Htid. destruct (trackingEnabled (engine s)); [apply incr_ge | lia]. }
  constructor.
  - intros i Hi. rewrite Hid in Hi.
    destruct (trackingEnabled (engine s)); [|discriminate].
    injection Hi as <-. lia.
  - eapply Forall_impl; [exact IH|]. cbn. intros d Hd i Hi.
    specialize (Hd i Hi). lia.
Qed.

Lemma simulateDetections_id_bounds s :
  Forall (fun d => forall i, id d = Some i ->
            trackingId (engine s) <= i <=
            trackingId (engine (exec simulateDetections s)))
         (eval simulateDetections s).
Proof.
  unfold simulateDetections. rewrite !exec_bind, !eval_bind.
  change (eval this s) with (engine s). change (exec this s) with s.
  destruct (JS.gt (eval Math_random s) (8 # 10)); [|constructor].
  rewrite !exec_bind, !eval_bind.
  destruct (getModelConfig (currentModel (engine s))) as [config| |]; [|constructor..].
  apply (generateDetections_id_bounds _ config (exec Math_random (exec Math_random s))).
Qed.


(** ** Alerts *)

Lemma simulateDetections_plain s :
  Forall (fun d => plain_class (class d) = true) (eval simulateDetections s).
Proof.
  destruct (simulateDetections_cases s) as [-> | (cfg & s2 & Hcfg & Hr & Ht & ->)];
    [constructor|].
  apply (generateDetections_forall _ cfg _ (random (world s)) (threshold (engine s)));
    [|assumption..].
  intros s0 _ _.
  destruct (generateDetection_eval cfg s0) as (-> & _).
  apply (getModelConfig_registered _ _ Hcfg).
Qed.

Ltac prim_alerts :=
  let s := fresh "s" in let H := fresh "H" in
  let a := fresh "a" in let Hin := fresh "Hin" in
  intros s H a Hin; revert Hin; run_m;
  try destruct (rafPending s) eqn:?; try destruct (timers s) eqn:?; cbn;
  intros Hin;
  first [ now apply H
        | apply in_app_or in Hin; destruct Hin as [Hin | [Hin | []]];
          [now apply H | discriminate Hin] ].

Lemma gt_true a b : JS.gt a b = true -> (b < a)%Q.
Proof.
  unfold JS.gt. intros H. apply negb_true_iff in H.
  apply Qnot_le_lt. intros Hle. apply Qle_bool_iff in Hle. congruence.
Qed.

Lemma triggerAlert_ok d :
  alert_ok (mkAlert (class d) (confidence d) 0 (getAlertSeverity d)) ->
  steps (keeps alerts_ok) (triggerAlert d).
Proof.
  intros Hok s H a Hin. revert Hin. unfold triggerAlert. run_m. intros Hin.
  apply in_app_or in Hin. destruct Hin as [Hin | [Hin | []]]; [now apply H|].
  injection Hin as <-. exact Hok.
Qed.

Lemma checkAlerts_ok d :
  plain_class (class d) = true -> steps (keeps alerts_ok) (checkAlerts d).
Proof.
  intros Hplain. unfold checkAlerts, JS.get. cbn [JS.own_property].
  unfold plain_class in Hplain. apply negb_true_iff in Hplain. rewrite Hplain.
  destruct (String.eqb "person" (class d)) eqn:E1;
    [|destruct (String.eqb "unauthorized-trail" (class d)) eqn:E2;
      [|destruct (String.eqb "vehicle" (class d)) eqn:E3]].
  4: apply steps_ret; typeclasses eauto.
  all: match goal with
       | |- context [JS.gt ?c ?t] => destruct (JS.gt c t) eqn:G
       end; [|apply steps_ret; typeclasses eauto].
  all: apply triggerAlert_ok; apply gt_true in G; unfold alert_ok, getAlertSeverity.
  - apply String.eqb_eq in E1. rewrite <- E1. left. repeat split. exact G.
  - apply String.eqb_eq in E2. rewrite <- E2. right. left. repeat split. exact G.
  - apply String.eqb_eq in E3. rewrite <- E3. right. right. repeat split. exact G.
Qed.

Lemma processFrame_alerts : steps (keeps alerts_ok) processFrame.
Proof.
  unfold processFrame.
  apply steps_bind; [typeclasses eauto | prim_alerts | intros _].
  apply (steps_bind_with _ (Forall (fun d => plain_class (class d) = true)));
    [apply simulateDetections_plain | | ].
  { apply (steps_weaken same_but_ids); [|apply simulateDetections_same_but_ids].
    intros s s' (_&_&_&_&_&_&He&_) H a Hin. rewrite He in Hin. now apply H. }
  intros detections Hplain.
  apply steps_bind; [typeclasses eauto | | intros _].
  - apply steps_forEach; [typeclasses eauto|]. intros d Hd.
    assert (Hp : plain_class (class d) = true).
    { rewrite Forall_forall in Hplain. apply Hplain. now apply list_elem_of_In. }
    unfold handleDetection, storeDetection, storeKey, updateDetectionDisplay,
      logDetectionEvent.
    steps_split ltac:(first [ apply (checkAlerts_ok d Hp) | prim_alerts ]).
  - unfold updatePerformanceMetrics.
    steps_split ltac:(first [ prim_alerts ]).
Qed.

Lemma handle_alerts i : steps (keeps alerts_ok) (handle i).
Proof.
  destruct i; unfold handle, start, stop, destroy, stop, setModel, modelLoaded,
    setConfidence, enableTracking, startDetectionLoop, clearAllDetections,
    clearTrackingData, updatePerformanceMetrics, showModelLoading,
    hideModelLoading, updateModelPerformance.
  all: steps_split ltac:(first [ apply processFrame_alerts | prim_alerts ]).
Qed.

(** X6.  Whatever the inputs and the draws, every security alert that
    the engine dispatches is for a person scoring above 0.8 (severity
    high), an unauthorized trail above 0.7 (critical) or a vehicle above
    0.85 (medium): no alert is ever raised for another class, and the
    severity 'low' that [getAlertSeverity] has for animals is never
    sent. *)
Theorem alerts_only_for_three_classes :
  forall w inputs a,
    In (Dispatch (securityAlert a)) (effects (exec (run inputs) (initial w))) ->
    alert_ok a.
Proof.
  intros w inputs a.
  assert (H : alerts_ok (exec (run inputs) (initial w))).
  { apply (run_steps (fun _ => True) inputs (fun i _ => handle_alerts i)).
    - apply Forall_forall. auto.
    - intros a' []. }
  apply H.
Qed.

Lemma alerts_only_for_three_classes_witness :
  let a := mkAlert "person" (17500 # 20000) 1004 (JS.Own "high"%string) in
  In (Dispatch (securityAlert a))
     (effects (exec (run [startSurveillance]) (initial steady_world))) /\
  alert_ok a.
Proof.
  assert (H : In (Dispatch (securityAlert
                    (mkAlert "person" (17500 # 20000) 1004 (JS.Own "high"%string))))
                 (effects (exec (run [startSurveillance]) (initial steady_world)))).
  { vm_compute. do 2 right. left. reflexivity. }
  split; [exact H|].
  exact (alerts_only_for_three_classes steady_world [startSurveillance] _ H).
Defined.

(** ** The loading indicator *)

Lemma loading_events_app flag l1 l2 :
  loading_events flag (l1 ++ l2) =
  (loading_events flag l1 + loading_events flag l2)%nat.
Proof. unfold loading_events. now rewrite List.filter_app, length_app. Qed.

Ltac prim_loading :=
  let s := fresh "s" in let H := fresh "H" in
  intros s H; unfold keeps, loading_balanced in *; revert H;
  unfold exec, eval, mbind, State_bind, mret, State_ret, this, update, emit,
    Math_random, Date_now, window_videoHandler, requestAnimationFrame,
    setTimeout, count_frame, take_raf, with_world;
  try destruct (rafPending s) eqn:?;
  cbn [fst snd effects timers]; rewrite ?loading_events_app; cbn; intros H; lia.

Lemma processFrame_loading : steps (keeps loading_balanced) processFrame.
Proof.
  unfold processFrame, updatePerformanceMetrics, handleDetection, storeDetection,
    storeKey, updateDetectionDisplay, logDetectionEvent, checkAlerts, triggerAlert.
  steps_split ltac:(first
    [ apply (steps_weaken same_but_ids);
      [ intros s s' (_&_&_&_&_&_&He&_&Ht&_); unfold keeps, loading_balanced;
        rewrite He, Ht; auto
      | apply simulateDetections_same_but_ids ]
    | prim_loading ]).
Qed.

Lemma setModel_loading m : steps (keeps loading_balanced) (setModel m).
Proof.
  intros s H. unfold keeps, loading_balanced, setModel, showModelLoading in *.
  revert H.
  unfold exec, mbind, State_bind, update, emit, setTimeout.
  cbn [fst snd effects timers].
  rewrite !loading_events_app, length_app. cbn. lia.
Qed.

Lemma timeout_loading : steps (keeps loading_balanced) (handle timeout).
Proof.
  intros s H. unfold keeps, loading_balanced, handle, modelLoaded,
    hideModelLoading, updateModelPerformance in *.
  revert H.
  unfold exec, mbind, State_bind, mret, State_ret, emit, take_timer.
  destruct (timers s) as [|m rest] eqn:Ht; cbn [fst snd effects timers];
    [intros H; rewrite Ht; exact H|].
  rewrite !loading_events_app. cbn. lia.
Qed.

Lemma handle_loading i : steps (keeps loading_balanced) (handle i).
Proof.
  destruct i as [| |m| | | | | |];
    [ | | exact (setModel_loading m) | | | | | | exact timeout_loading ];
    unfold handle, start, stop, destroy, stop,
      setConfidence, enableTracking, startDetectionLoop, clearAllDetections,
      clearTrackingData, updatePerformanceMetrics.
  all: steps_split ltac:(first [ apply processFrame_loading | prim_loading ]).
Qed.

(** X7.  In every state the engine can reach, the loading indicator is
    accounted for: the number of times it has been shown equals the number
    of times it has been hidden plus the number of [setModel] timers still
    pending, so once the timers have fired it has been hidden as often as
    shown. *)
Theorem loading_indicator_is_balanced :
  forall w inputs,
    let s := exec (run inputs) (initial w) in
    loading_events true (effects s) =
    (loading_events false (effects s) + length (timers s))%nat.
Proof.
  intros w inputs s.
  apply (run_steps (fun _ => True) inputs (fun i _ => handle_loading i)).
  - apply Forall_forall. auto.
  - reflexivity.
Qed.

(** ** The loop *)

#[local] Instance loop_untouched_preorder : PreOrder loop_untouched.
Proof.
  split.
  - intros s. unfold loop_untouched. tauto.
  - intros s1 s2 s3 (?&?&?&?) (?&?&?&?). unfold loop_untouched.
    repeat split; congruence.
Qed.

Ltac prim_loop :=
  let s := fresh "s" in
  intros s; unfold loop_untouched; run_m; tauto.

Lemma processFrame_counts s :
  let s' := exec processFrame s in
  isActive (engine s') = isActive (engine s) /\
  rafPending s' = rafPending s /\
  timers s' = timers s /\
  framesProcessed s' = Datatypes.S (framesProcessed s).
Proof.
  cbv zeta. unfold processFrame. rewrite exec_bind.
  match goal with
  | |- context [exec ?m (exec count_frame s)] =>
      assert (H : steps loop_untouched m)
  end.
  { unfold updatePerformanceMetrics, handleDetection, storeDetection,
      storeKey, updateDetectionDisplay, logDetectionEvent, checkAlerts, triggerAlert.
    steps_split ltac:(first
      [ apply (steps_weaken same_but_ids);
        [ intros s1 s2 (?&_&_&_&_&_&_&?&?&?); unfold loop_untouched; tauto
        | apply simulateDetections_same_but_ids ]
      | prim_loop ]). }
  destruct (H (exec count_frame s)) as (Ha & Hr & Ht & Hf).
  rewrite Ha, Hr, Ht, Hf. repeat split.
Qed.

Lemma startDetectionLoop_active s :
  isActive (engine s) = true ->
  let s' := exec startDetectionLoop s in
  isActive (engine s') = true /\
  rafPending s' = Datatypes.S (rafPending s) /\
  framesProcessed s' = Datatypes.S (framesProcessed s).
Proof.
  intros Ha. cbv zeta. unfold startDetectionLoop. rewrite exec_bind.
  change (eval this s) with (engine s). change (exec this s) with s.
  rewrite Ha. cbn [negb]. rewrite exec_bind.
  destruct (processFrame_counts s) as (A2 & R2 & _ & F2).
  set (s2 := exec processFrame s) in *.
  change (isActive (engine s2) = true /\
          Datatypes.S (rafPending s2) = Datatypes.S (rafPending s) /\
          framesProcessed s2 = Datatypes.S (framesProcessed s)).
  rewrite A2, R2, F2. auto.
Qed.

Lemma animationFrame_active s :
  isActive (engine s) = true -> (0 < rafPending s)%nat ->
  let s' := exec (handle animationFrame) s in
  isActive (engine s') = true /\
  rafPending s' = rafPending s /\
  framesProcessed s' = Datatypes.S (framesProcessed s).
Proof.
  intros Ha Hr. cbv zeta. unfold handle. rewrite exec_bind.
  destruct (rafPending s) as [|k] eqn:Hk; [lia|].
  assert (E : eval take_raf s = true) by (unfold eval, take_raf; now rewrite Hk).
  assert (Hs1 : isActive (engine (exec take_raf s)) = true /\
                rafPending (exec take_raf s) = k /\
                framesProcessed (exec take_raf s) = framesProcessed s).
  { unfold exec, take_raf. rewrite Hk. cbn. auto. }
  rewrite E. destruct Hs1 as (A1 & R1 & F1).
  destruct (startDetectionLoop_active _ A1) as (A2 & R2 & F2).
  rewrite A2, R2, F2, R1, F1. auto.
Qed.

(** X8.  While the engine is active and a callback is pending, every
    animation frame processes exactly one frame and re-arms exactly one
    callback: after [n] animation frames, [n] more frames have been
    processed and the number of pending callbacks is what it was, so a
    loop neither dies out nor multiplies by itself. *)
Theorem active_loop_is_steady :
  forall n s,
    isActive (engine s) = true -> (0 < rafPending s)%nat ->
    let s' := exec (run (repeat animationFrame n)) s in
    isActive (engine s') = true /\
    rafPending s' = rafPending s /\
    framesProcessed s' = (framesProcessed s + n)%nat.
Proof.
  induction n as [|n IH]; intros s Ha Hr; cbv zeta.
  - cbn. repeat split; [assumption | lia].
  - cbn [repeat]. unfold run. cbn [forEach]. rewrite exec_bind.
    destruct (animationFrame_active s Ha Hr) as (A1 & R1 & F1).
    destruct (IH (exec (handle animationFrame) s)) as (A2 & R2 & F2);
      [assumption | lia |].
    unfold run in *. rewrite A2, R2, F2, R1, F1. repeat split. lia.
Qed.

Lemma active_loop_is_steady_witness :
  let s := exec start steady_tracking in
  isActive (engine s) = true /\ (0 < rafPending s)%nat /\
  framesProcessed (exec (run (repeat animationFrame 3)) s) =
    (framesProcessed s + 3)%nat.
Proof.
  split; [reflexivity|]. split; [vm_compute; lia|].
  apply (active_loop_is_steady 3 (exec start steady_tracking)).
  - reflexivity.
  - vm_compute. lia.
Defined.

(** X9.  [start] has no guard: each call processes a frame at once and
    arms one more callback, also when the engine is already active, so
    starting a running engine leaves it with one more loop. *)
Theorem start_adds_a_loop :
  forall s,
    let s' := exec start s in
    isActive (engine s') = true /\
    rafPending s' = Datatypes.S (rafPending s) /\
    framesProcessed s' = Datatypes.S (framesProcessed s).
Proof.
  intros s. cbv zeta. unfold start. rewrite !exec_bind.
  set (s1 := exec (update (set_isActive true)) s).
  destruct (startDetectionLoop_active s1 eq_refl) as (A2 & R2 & F2).
  set (s2 := exec startDetectionLoop s1) in *.
  change (isActive (engine s2) = true /\
          rafPending s2 = Datatypes.S (rafPending s) /\
          framesProcessed s2 = Datatypes.S (framesProcessed s)).
  rewrite A2, R2, F2. auto.
Qed.

(** ** The map of detected objects *)

#[local] Instance stored_kept_preorder : PreOrder stored_kept.
Proof.
  split; unfold stored_kept; [intros s | intros s1 s2 s3]; set_solver.
Qed.

Ltac prim_stored :=
  let s := fresh "s" in
  intros s; unfold stored_kept; run_m;
  try destruct (rafPending s) eqn:?; try destruct (timers s) eqn:?; cbn;
  rewrite ?dom_insert_L, ?dom_fmap_L; set_solver.

Lemma processFrame_stored : steps stored_kept processFrame.
Proof.
  unfold processFrame, updatePerformanceMetrics, handleDetection, storeDetection,
    storeKey, updateDetectionDisplay, logDetectionEvent, checkAlerts, triggerAlert.
  steps_split ltac:(first
    [ apply (steps_weaken same_but_ids);
      [ intros s s' (_&_&_&_&Hm&_); unfold stored_kept; rewrite Hm; set_solver
      | apply simulateDetections_same_but_ids ]
    | prim_stored ]).
Qed.

Lemma handle_stored i : clears i = false -> steps stored_kept (handle i).
Proof.
  intros Hi.
  destruct i; try discriminate;
    unfold handle, start, setModel, modelLoaded, setConfidence, enableTracking,
      startDetectionLoop, clearTrackingData, updatePerformanceMetrics,
      showModelLoading, hideModelLoading, updateModelPerformance.
  all: steps_split ltac:(first [ apply processFrame_stored | prim_stored ]).
Qed.

(** X10.  Nothing is ever evicted from the map of detected objects while
    the engine runs: through any inputs other than a stop or a destroy,
    every key that is in the map stays in it (frames only add keys, and
    switching tracking off rewrites the entries in place). *)
Theorem detected_objects_only_accumulate :
  forall s inputs,
    Forall (fun i => clears i = false) inputs ->
    dom (detectedObjects (engine s)) ⊆
    dom (detectedObjects (engine (exec (run inputs) s))).
Proof.
  intros s inputs Hin.
  exact (run_steps (fun i => clears i = false) inputs handle_stored Hin s).
Qed.

Lemma detected_objects_only_accumulate_witness :
  let s := exec (run [trackingToggled true; startSurveillance]) (initial steady_world) in
  let inputs := [animationFrame; trackingToggled false; animationFrame] in
  Forall (fun i => clears i = false) inputs /\
  dom (detectedObjects (engine s)) ⊆
  dom (detectedObjects (engine (exec (run inputs) s))).
Proof.
  split; [repeat constructor|].
  apply (detected_objects_only_accumulate
           (exec (run [trackingToggled true; startSurveillance]) (initial steady_world))
           [animationFrame; trackingToggled false; animationFrame]).
  repeat constructor.
Defined.

(** ** Threat assessment *)

Lemma slice_last_app {A} (older recent : list A) n :
  length recent = n -> JS.slice_last n (older ++ recent) = recent.
Proof.
  intros <-. unfold JS.slice_last. rewrite length_app.
  replace (length older + length recent - length recent)%nat with (length older) by lia.
  apply drop_app_length.
Qed.

(** X11.  The threat level looks at the last ten entries of the history
    only: whatever came before them does not change it. *)
Theorem threat_level_uses_last_ten :
  forall e older recent,
    detectionHistory e = older ++ recent ->
    length recent = 10%nat ->
    assessThreatLevel e = assessThreatLevel (set_detectionHistory recent e).
Proof.
  intros e older recent Hh Hlen. unfold assessThreatLevel.
  cbn [detectionHistory set_detectionHistory]. rewrite Hh.
  rewrite (slice_last_app older recent 10 Hlen).
  unfold JS.slice_last. rewrite Hlen. reflexivity.
Qed.

Lemma count_zero_iff {A} (f : A -> bool) l :
  length (List.filter f l) = 0%nat <-> Forall (fun a => f a = false) l.
Proof.
  induction l as [|a l IH]; cbn.
  - split; [constructor | reflexivity].
  - destruct (f a) eqn:E; cbn.
    + split; [discriminate|]. intros H. inversion H; subst. congruence.
    + rewrite IH. split; [now constructor|]. intros H. now inversion H.
Qed.

(** X12.  The threat level is 'low' exactly when none of the last ten
    detections is a person: unauthorized trails without a person among
    them never raise it. *)
Theorem threat_level_low_iff_no_person :
  forall e,
    assessThreatLevel e = "low"%string <->
    Forall (fun d => class d <> "person"%string)
           (JS.slice_last 10 (detectionHistory e)).
Proof.
  intros e. unfold assessThreatLevel. cbv zeta.
  set (recent := JS.slice_last 10 (detectionHistory e)).
  set (p := length (List.filter (fun d => String.eqb (class d) "person") recent)).
  set (t := length (List.filter _ recent)).
  assert (Hp : p = 0%nat <-> Forall (fun d => class d <> "person"%string) recent).
  { subst p. rewrite count_zero_iff. apply Forall_iff. intros d.
    rewrite String.eqb_neq. reflexivity. }
  rewrite <- Hp.
  destruct (Nat.ltb_spec 0 t), (Nat.ltb_spec 0 p), (Nat.ltb_spec 2 p); cbn;
    split; intros Hq; try discriminate; try lia; reflexivity.
Qed.

Lemma threat_level_uses_last_ten_witness :
  let d := mkDetection "person" (9 # 10) (mkBBox 0 0 80 120) (IsoString 0) None in
  let t := mkDetection "unauthorized-trail" (9 # 10) (mkBBox 0 0 80 120) (IsoString 0) None in
  let e := set_detectionHistory ([t; t] ++ repeat d 10) new_engine in
  detectionHistory e = [t; t] ++ repeat d 10 /\
  assessThreatLevel e = assessThreatLevel (set_detectionHistory (repeat d 10) e).
Proof.
  split; [reflexivity|].
  apply (threat_level_uses_last_ten _
           [mkDetection "unauthorized-trail" (9 # 10) (mkBBox 0 0 80 120) (IsoString 0) None;
            mkDetection "unauthorized-trail" (9 # 10) (mkBBox 0 0 80 120) (IsoString 0) None]);
    reflexivity.
Defined.

Lemma trails_alone_are_a_low_threat :
  let t := mkDetection "unauthorized-trail" (9 # 10) (mkBBox 0 0 80 120) (IsoString 0) None in
  let e := set_detectionHistory [t; t] new_engine in
  Forall (fun d => class d <> "person"%string)
         (JS.slice_last 10 (detectionHistory e)) /\
  assessThreatLevel e = "low"%string.
Proof.
  cbv zeta.
  match goal with
  | |- ?P /\ _ => assert (H : P) by (vm_compute; repeat constructor; discriminate)
  end.
  split; [exact H | exact (proj2 (threat_level_low_iff_no_person _) H)].
Defined.

(** * Further properties of the application shell and the video handler *)

(** X13.  The table of model statistics of the application shell and the
    table of model configurations of the engine answer alike for every
    model name: an entry in both, an inherited member in both, or nothing
    in both.  A model that the shell can show is never one for which the
    engine falls back, and conversely; and [getModelStats] always has
    statistics to return. *)
Theorem model_tables_agree :
  forall model,
    match JS.get configs model, JS.get App.modelData model with
    | JS.Own _, JS.Own _ => True
    | JS.Inherited a, JS.Inherited b => a = b
    | JS.Undefined, JS.Undefined => True
    | _, _ => False
    end /\
    App.getModelStats model <> JS.Undefined.
Proof.
  intros model. split.
  - unfold JS.get, configs, App.modelData. cbn [JS.own_property].
    repeat match goal with
           | |- context [if String.eqb ?a ?b then _ else _] => destruct (String.eqb a b)
           | |- context [if existsb ?f ?l then _ else _] => destruct (existsb f l)
           end; auto.
  - unfold App.getModelStats, JS.or.
    destruct (JS.get App.modelData model); vm_compute; discriminate.
Qed.

(** ** The video handler's loop *)

Ltac video_run s :=
  destruct s as [proc overlay alerts next rem fo fd raf [rnd rc clk cc cw ch]];
  lazy beta iota zeta delta
    [exec eval mbind State_bind mret State_ret fst snd
     Video.simulateDetections Video.generateRandomDetection
     Video.getRandomColor Video.drawDetection Video.addDetectionAlert
     Video.clearDetections Video.Math_random Video.Date_now
     Video.createElement Video.set_detectionOverlay Video.set_alertsContainer
     Video.set_removals Video.set_world Video.set_rafPending
     Video.set_isProcessing Video.this Video.removeBox Video.fadeBox
     Video.parentNode Video.set_fadeOuts Video.set_faded Video.take_fadeOut
     Video.processFrame Video.startProcessing Video.stopProcessing
     Video.destroy Video.take_raf Video.take_removal
     Video.isProcessing Video.detectionOverlay Video.alertsContainer
     Video.nextNode Video.removals Video.fadeOuts Video.faded
     Video.rafPending Video.world
     Video.random Video.rcur Video.clock Video.ccur
     Video.canvasWidth Video.canvasHeight
     Video.id Video.class Video.confidence Video.bbox Video.color
     Video.x Video.y Video.width Video.height Video.node Video.shown].

(** What a frame of the demo leaves of the handler's bookkeeping. *)
Lemma video_simulateDetections_fields s :
  let s' := exec Video.simulateDetections s in
  Video.isProcessing s' = Video.isProcessing s /\
  Video.rafPending s' = Video.rafPending s /\
  (length (Video.detectionOverlay s') <= 1)%nat /\
  Forall (fun b => Video.node b = Video.nextNode s) (Video.detectionOverlay s') /\
  (Video.nextNode s <= Video.nextNode s')%nat.
Proof.
  cbv zeta. video_run s. destruct (JS.gt _ _); cbn [app length].
  - repeat split; try lia. repeat constructor.
  - repeat split; try lia. constructor.
Qed.

Lemma video_processFrame_active s :
  Video.isProcessing s = true ->
  Video.isProcessing (exec Video.processFrame s) = true /\
  Video.rafPending (exec Video.processFrame s) = Datatypes.S (Video.rafPending s).
Proof.
  intros Hp. unfold Video.processFrame. rewrite exec_bind.
  change (eval Video.this s) with s. change (exec Video.this s) with s.
  rewrite Hp. cbn [negb]. rewrite !exec_bind.
  destruct (video_simulateDetections_fields s) as (Hp' & Hr' & _).
  set (s1 := exec Video.simulateDetections s) in *.
  change (eval Video.this s1) with s1. change (exec Video.this s1) with s1.
  change (Video.isProcessing s1 = true /\
          Datatypes.S (Video.rafPending s1) = Datatypes.S (Video.rafPending s)).
  rewrite Hp', Hr', Hp. auto.
Qed.

Lemma video_processFrame_idle s :
  Video.isProcessing s = false -> exec Video.processFrame s = s.
Proof.
  intros Hp. unfold Video.processFrame. rewrite exec_bind.
  change (eval Video.this s) with s. change (exec Video.this s) with s.
  rewrite Hp. reflexivity.
Qed.

Lemma filter_all {A} (P : A -> Prop) `{!forall a, Decision (P a)} (l : list A) :
  Forall P l -> filter P l = l.
Proof.
  induction 1 as [|a l Ha _ IH]; [reflexivity|].
  rewrite filter_cons_True by assumption. now rewrite IH.
Qed.

Lemma filter_none {A} (P : A -> Prop) `{!forall a, Decision (P a)} (l : list A) :
  Forall (fun a => ~ P a) l -> filter P l = [].
Proof.
  induction 1 as [|a l Ha _ IH]; [reflexivity|].
  now rewrite filter_cons_False by assumption.
Qed.

(** The timers of a box touch neither the processing flag, nor the
    pending animation-frame callbacks, nor the alert list; the two-second
    timer leaves the overlay as it is, and the 300 ms timer takes nothing
    but its own box out of it. *)
Lemma video_take_removal_fields s :
  let s' := exec Video.take_removal s in
  Video.isProcessing s' = Video.isProcessing s /\
  Video.rafPending s' = Video.rafPending s /\
  Video.detectionOverlay s' = Video.detectionOverlay s /\
  Video.alertsContainer s' = Video.alertsContainer s.
Proof.
  unfold exec, Video.take_removal, mbind, State_bind, Video.this.
  destruct (Video.removals s); cbn; auto.
Qed.

Lemma video_take_fadeOut_fields s :
  let s' := exec Video.take_fadeOut s in
  Video.isProcessing s' = Video.isProcessing s /\
  Video.rafPending s' = Video.rafPending s /\
  Video.detectionOverlay s' = Video.detectionOverlay s /\
  Video.alertsContainer s' = Video.alertsContainer s.
Proof.
  unfold exec, Video.take_fadeOut, mbind, State_bind, Video.this.
  destruct (Video.fadeOuts s); cbn; auto.
Qed.

Lemma video_fadeBox_fields n s :
  let s' := exec (Video.fadeBox n) s in
  Video.isProcessing s' = Video.isProcessing s /\
  Video.rafPending s' = Video.rafPending s /\
  Video.detectionOverlay s' = Video.detectionOverlay s /\
  Video.alertsContainer s' = Video.alertsContainer s.
Proof.
  unfold exec, Video.fadeBox, Video.parentNode, mbind, State_bind, mret, State_ret,
    Video.this, Video.set_faded, Video.set_fadeOuts.
  destruct (existsb _ _); cbn; auto.
Qed.

Lemma video_removeBox_fields n s :
  let s' := exec (Video.removeBox n) s in
  Video.isProcessing s' = Video.isProcessing s /\
  Video.rafPending s' = Video.rafPending s /\
  Video.detectionOverlay s' =
    filter (fun b => Video.node b ≠ n) (Video.detectionOverlay s) /\
  Video.alertsContainer s' = Video.alertsContainer s.
Proof.
  unfold exec, Video.removeBox, Video.parentNode, mbind, State_bind, mret, State_ret,
    Video.this, Video.set_detectionOverlay.
  destruct (existsb _ _) eqn:E; cbn; repeat split.
  symmetry. apply filter_all. apply Forall_forall. intros b Hb Heq.
  apply list_elem_of_In in Hb.
  assert (Ht : existsb (fun b => Video.node b =? n)%nat (Video.detectionOverlay s) = true).
  { apply existsb_exists. exists b. split; [exact Hb|]. now apply Nat.eqb_eq. }
  congruence.
Qed.

Lemma video_handle_one_loop i :
  Video.stops i = false -> steps (keeps Video.one_loop) (Video.handle i).
Proof.
  intros Hi s Hs. destruct i; try discriminate; unfold Video.handle.
  - (* startProcessing *)
    unfold Video.startProcessing. rewrite exec_bind.
    change (eval Video.this s) with s. change (exec Video.this s) with s.
    destruct Hs as [(Hp & Hr) | (Hp & Hr)]; rewrite Hp.
    + rewrite exec_bind.
      set (s1 := exec (Video.set_isProcessing true) s).
      destruct (video_processFrame_active s1 eq_refl) as (Hp' & Hr').
      right. split; [exact Hp'|]. rewrite Hr'.
      change (Video.rafPending s1) with (Video.rafPending s). now rewrite Hr.
    + right. auto.
  - (* animation frame *)
    rewrite exec_bind. destruct Hs as [(Hp & Hr) | (Hp & Hr)].
    + assert (E : Video.take_raf s = (false, s)).
      { unfold Video.take_raf, mbind, State_bind, Video.this. now rewrite Hr. }
      unfold eval, exec. rewrite E. left. auto.
    + assert (E : Video.take_raf s =
                  (true, snd (Video.set_rafPending 0 s))).
      { unfold Video.take_raf, mbind, State_bind, Video.this. now rewrite Hr. }
      unfold eval at 1, exec at 2. rewrite E. cbn [fst snd].
      destruct (video_processFrame_active (snd (Video.set_rafPending 0 s)) Hp)
        as (Hp' & Hr').
      right. auto.
  - (* two-second timer *)
    rewrite exec_bind.
    destruct (video_take_removal_fields s) as (P1 & R1 & _).
    set (s1 := exec Video.take_removal s) in *.
    destruct (eval Video.take_removal s) as [n|].
    + destruct (video_fadeBox_fields n s1) as (P2 & R2 & _).
      unfold Video.one_loop in *. rewrite P2, R2, P1, R1. exact Hs.
    + unfold Video.one_loop in *.
      change (exec (mret tt) ?t) with t. rewrite P1, R1. exact Hs.
  - (* 300 ms timer *)
    rewrite exec_bind.
    destruct (video_take_fadeOut_fields s) as (P1 & R1 & _).
    set (s1 := exec Video.take_fadeOut s) in *.
    destruct (eval Video.take_fadeOut s) as [n|].
    + destruct (video_removeBox_fields n s1) as (P2 & R2 & _).
      unfold Video.one_loop in *. rewrite P2, R2, P1, R1. exact Hs.
    + unfold Video.one_loop in *.
      change (exec (mret tt) ?t) with t. rewrite P1, R1. exact Hs.
Qed.

(** X14.  As long as processing is not stopped, the video handler has at
    most one loop: from the constructor, through any starts, animation
    frames and removal timers, it is either idle with no callback pending
    or processing with exactly one, because [startProcessing] returns at
    once when processing is already on. *)
Theorem video_has_one_loop :
  forall w inputs,
    Forall (fun i => Video.stops i = false) inputs ->
    Video.one_loop (exec (Video.run inputs) (Video.initial w)).
Proof.
  intros w inputs Hin.
  assert (H : steps (keeps Video.one_loop) (Video.run inputs)).
  { unfold Video.run. apply steps_forEach; [typeclasses eauto|].
    intros i Hi. apply video_handle_one_loop.
    rewrite Forall_forall in Hin. apply Hin. now apply list_elem_of_In. }
  apply H. left. split; reflexivity.
Qed.

Lemma video_has_one_loop_witness :
  let inputs := [Video.callStartProcessing; Video.animationFrame;
                 Video.callStartProcessing; Video.removalTimeout;
                 Video.animationFrame] in
  Forall (fun i => Video.stops i = false) inputs /\
  Video.one_loop (exec (Video.run inputs) (Video.initial Video.two_frames_world)).
Proof.
  split; [repeat constructor|].
  apply (video_has_one_loop Video.two_frames_world
           [Video.callStartProcessing; Video.animationFrame;
            Video.callStartProcessing; Video.removalTimeout;
            Video.animationFrame]).
  repeat constructor.
Defined.

#[local] Instance video_stopped_step_preorder : PreOrder Video.stopped_step.
Proof.
  split.
  - intros s [Hp Ho]. auto.
  - intros s1 s2 s3 H12 H23 H1.
    destruct (H12 H1) as (P2 & O2 & R2). destruct (H23 (conj P2 O2)) as (P3 & O3 & R3).
    repeat split; [assumption.. | lia].
Qed.

Lemma video_handle_stopped i :
  i <> Video.callStartProcessing -> steps Video.stopped_step (Video.handle i).
Proof.
  intros Hi s [Hp Ho]. destruct i; try congruence; unfold Video.handle.
  - repeat split. apply Nat.le_refl.
  - repeat split. apply Nat.le_refl.
  - rewrite exec_bind.
    assert (H : Video.isProcessing (exec Video.take_raf s) = false /\
                Video.detectionOverlay (exec Video.take_raf s) = [] /\
                (Video.rafPending (exec Video.take_raf s) <= Video.rafPending s)%nat).
    { unfold exec, Video.take_raf, mbind, State_bind, Video.this.
      destruct (Video.rafPending s) eqn:E; cbn; rewrite ?E; repeat split; auto; lia. }
    destruct H as (P1 & O1 & R1).
    destruct (eval Video.take_raf s).
    + rewrite (video_processFrame_idle _ P1). auto.
    + change (exec (mret tt) ?t) with t. auto.
  - rewrite exec_bind.
    destruct (video_take_removal_fields s) as (P1 & R1 & O1 & _).
    set (s1 := exec Video.take_removal s) in *.
    destruct (eval Video.take_removal s) as [n|].
    + destruct (video_fadeBox_fields n s1) as (P2 & R2 & O2 & _).
      rewrite P2, R2, O2, P1, R1, O1. repeat split; auto.
    + change (exec (mret tt) ?t) with t. rewrite P1, O1, R1. repeat split; auto.
  - rewrite exec_bind.
    destruct (video_take_fadeOut_fields s) as (P1 & R1 & O1 & _).
    set (s1 := exec Video.take_fadeOut s) in *.
    destruct (eval Video.take_fadeOut s) as [n|].
    + destruct (video_removeBox_fields n s1) as (P2 & R2 & O2 & _).
      rewrite P2, R2, O2, P1, R1, O1, Ho. repeat split; auto.
    + change (exec (mret tt) ?t) with t. rewrite P1, O1, R1. repeat split; auto.
Qed.

(** X15.  Stopping the video handler is effective: after
    [stopProcessing], and until processing is started again, the overlay
    stays empty, every pending animation-frame callback returns at the
    check of [isProcessing] without drawing and without asking for another
    frame, and removal timers that fire find nothing to remove. *)
Theorem video_stop_is_effective :
  forall s inputs,
    Forall (fun i => i <> Video.callStartProcessing) inputs ->
    let s0 := exec Video.stopProcessing s in
    let s' := exec (Video.run inputs) s0 in
    Video.isProcessing s' = false /\
    Video.detectionOverlay s' = [] /\
    (Video.rafPending s' <= Video.rafPending s0)%nat.
Proof.
  intros s inputs Hin s0 s'.
  assert (H : steps Video.stopped_step (Video.run inputs)).
  { unfold Video.run. apply steps_forEach; [typeclasses eauto|].
    intros i Hi. apply video_handle_stopped.
    rewrite Forall_forall in Hin. apply Hin. now apply list_elem_of_In. }
  apply (H s0). split; reflexivity.
Qed.

Lemma video_stop_is_effective_witness :
  let s := exec (Video.run [Video.callStartProcessing]) (Video.initial Video.two_frames_world) in
  let inputs := [Video.animationFrame; Video.removalTimeout; Video.animationFrame] in
  Forall (fun i => i <> Video.callStartProcessing) inputs /\
  Video.detectionOverlay (exec (Video.run inputs) (exec Video.stopProcessing s)) = [].
Proof.
  assert (H : Forall (fun i => i <> Video.callStartProcessing)
                [Video.animationFrame; Video.removalTimeout; Video.animationFrame]).
  { repeat constructor; discriminate. }
  split; [exact H|].
  exact (proj1 (proj2 (video_stop_is_effective
    (exec (Video.run [Video.callStartProcessing]) (Video.initial Video.two_frames_world))
    _ H))).
Defined.

(** ** Boxes, alerts and colours of the video handler *)

Lemma video_fadeBox_exec n s :
  exec (Video.fadeBox n) s =
  if existsb (fun b => Video.node b =? n)%nat (Video.detectionOverlay s)
  then Video.mkSt (Video.isProcessing s) (Video.detectionOverlay s)
                  (Video.alertsContainer s) (Video.nextNode s) (Video.removals s)
                  (Video.fadeOuts s ++ [n]) (Video.faded s ++ [n])
                  (Video.rafPending s) (Video.world s)
  else s.
Proof.
  unfold exec, Video.fadeBox, Video.parentNode, mbind, State_bind, mret, State_ret,
    Video.this, Video.set_faded, Video.set_fadeOuts.
  destruct (existsb _ _); reflexivity.
Qed.

Lemma existsb_same_node (l : list Video.Box) (m n : nat) :
  Forall (fun b => Video.node b = m) l ->
  existsb (fun b => Video.node b =? n)%nat l =
  match l with [] => false | _ :: _ => (m =? n)%nat end.
Proof.
  induction 1 as [|b l Hb Hl IH]; [reflexivity|].
  cbn [existsb]. rewrite IH, Hb. destruct l; [apply orb_false_r | apply orb_diag].
Qed.

(** X16.  A box leaves the overlay in two steps.  Once a frame has run,
    the two-second timer of a box never takes anything out of the
    overlay: for the box that this frame drew it sets the opacity to 0
    and starts the 300 ms timer, and for any other box (an earlier one,
    already cleared away) it does nothing at all.  The 300 ms timer that
    follows then empties the overlay if it is the timer of the box just
    drawn, and leaves it as it is otherwise. *)
Theorem box_fades_before_it_is_removed :
  forall s n,
    let s' := exec Video.simulateDetections s in
    let s1 := exec (Video.fadeBox n) s' in
    let s2 := exec (Video.removeBox n) s1 in
    Video.detectionOverlay s1 = Video.detectionOverlay s' /\
    (n = Video.nextNode s /\ Video.detectionOverlay s' <> [] ->
       Video.faded s1 = Video.faded s' ++ [n] /\
       Video.fadeOuts s1 = Video.fadeOuts s' ++ [n]) /\
    (n <> Video.nextNode s \/ Video.detectionOverlay s' = [] -> s1 = s') /\
    Video.detectionOverlay s2 =
      if decide (n = Video.nextNode s) then [] else Video.detectionOverlay s'.
Proof.
  intros s n s' s1 s2.
  destruct (video_simulateDetections_fields s) as (_ & _ & _ & Hnodes & _).
  fold s' in Hnodes.
  destruct (video_fadeBox_fields n s') as (_ & _ & Ho1 & _). fold s1 in Ho1.
  destruct (video_removeBox_fields n s1) as (_ & _ & Ho2 & _). fold s2 in Ho2.
  pose proof (video_fadeBox_exec n s') as He. fold s1 in He.
  rewrite (existsb_same_node _ _ n Hnodes) in He.
  split; [exact Ho1|]. split; [|split].
  - intros [-> Hne]. destruct (Video.detectionOverlay s'); [contradiction|].
    rewrite Nat.eqb_refl in He. rewrite He. split; reflexivity.
  - intros [Hne | Hnil].
    + destruct (Video.detectionOverlay s'); [exact He|].
      destruct (Nat.eqb_spec (Video.nextNode s) n); [congruence | exact He].
    + rewrite Hnil in He. exact He.
  - rewrite Ho2, Ho1.
    destruct (decide (n = Video.nextNode s)) as [-> | Hne].
    + apply filter_none. eapply Forall_impl; [exact Hnodes|]. cbn. intros b -> H.
      now apply H.
    + apply filter_all. eapply Forall_impl; [exact Hnodes|]. cbn. intros b ->.
      congruence.
Qed.

Lemma first_box_fades_then_goes :
  let s := Video.initial Video.two_frames_world in
  let s' := exec Video.simulateDetections s in
  let s1 := exec (Video.fadeBox 0) s' in
  (0%nat = Video.nextNode s /\ Video.detectionOverlay s' <> []) /\
  Video.detectionOverlay s1 = Video.detectionOverlay s' /\
  Video.faded s1 = Video.faded s' ++ [0%nat] /\
  Video.fadeOuts s1 = Video.fadeOuts s' ++ [0%nat] /\
  Video.detectionOverlay (exec (Video.removeBox 0) s1) = [].
Proof.
  assert (H : 0%nat = Video.nextNode (Video.initial Video.two_frames_world) /\
              Video.detectionOverlay
                (exec Video.simulateDetections
                      (Video.initial Video.two_frames_world)) <> []).
  { split; [reflexivity|]. vm_compute. discriminate. }
  destruct (box_fades_before_it_is_removed
              (Video.initial Video.two_frames_world) 0%nat) as (A & B & _ & D).
  split; [exact H|]. split; [exact A|].
  split; [exact (proj1 (B H))|]. split; [exact (proj2 (B H))|]. exact D.
Defined.

Ltac prim_video_alerts :=
  let s := fresh "s" in let H := fresh "H" in
  intros s H; unfold keeps in *; revert H;
  unfold exec, eval, mbind, State_bind, mret, State_ret, Video.this,
    Video.set_isProcessing, Video.set_detectionOverlay, Video.set_alertsContainer,
    Video.set_removals, Video.set_fadeOuts, Video.set_faded, Video.set_rafPending,
    Video.set_world, Video.createElement;
  cbn [fst snd Video.alertsContainer]; intros H;
  first [ exact H | rewrite length_take; lia ].

Lemma video_handle_alerts i :
  steps (keeps (fun s => (length (Video.alertsContainer s) <= 5)%nat))
        (Video.handle i).
Proof.
  destruct i; unfold Video.handle, Video.startProcessing, Video.stopProcessing,
    Video.destroy, Video.processFrame, Video.simulateDetections,
    Video.generateRandomDetection, Video.getRandomColor, Video.drawDetection,
    Video.addDetectionAlert, Video.clearDetections, Video.removeBox, Video.fadeBox,
    Video.parentNode, Video.take_raf, Video.take_removal, Video.take_fadeOut,
    Video.Math_random, Video.Date_now.
  all: steps_split ltac:(first [ prim_video_alerts ]).
Qed.

(** X17.  The alert list of the video handler never shows more than five
    alerts, whatever the inputs and the draws. *)
Theorem video_alerts_at_most_five :
  forall w inputs,
    (length (Video.alertsContainer (exec (Video.run inputs) (Video.initial w))) <= 5)%nat.
Proof.
  intros w inputs.
  assert (H : steps (keeps (fun s => (length (Video.alertsContainer s) <= 5)%nat))
                    (Video.run inputs)).
  { unfold Video.run. apply steps_forEach; [typeclasses eauto|].
    intros i _. apply video_handle_alerts. }
  apply H. cbn. lia.
Qed.

(** X18.  With [Math.random()] in [0, 1) and a canvas of at least
    150 x 200 pixels, the detection that the demo generates has an id
    from 0 to 99, a confidence from 0.70 to 1.00, a box of 100 to 150 by
    150 to 200 pixels inside the canvas, and a colour of the palette. *)
Theorem video_detection_ranges :
  forall s,
    Video.draws_in_unit (Video.world s) ->
    (150 <= Video.canvasWidth (Video.world s))%Q ->
    (200 <= Video.canvasHeight (Video.world s))%Q ->
    let d := eval Video.generateRandomDetection s in
    0 <= Video.id d <= 99 /\
    70 <= Video.confidence d <= 100 /\
    Video.in_canvas (Video.world s) (Video.bbox d) /\
    In (Video.color d) Video.colors.
Proof.
  intros s Hd Hw Hh. cbv zeta.
  pose proof (Hd (Video.rcur (Video.world s))) as [H0 H0'].
  pose proof (Hd (Datatypes.S (Video.rcur (Video.world s)))) as [H1 H1'].
  pose proof (Hd (Datatypes.S (Datatypes.S (Video.rcur (Video.world s))))) as [H2 H2'].
  pose proof (Hd (Datatypes.S (Datatypes.S (Datatypes.S (Video.rcur (Video.world s)))))) as [H3 H3'].
  pose proof (Hd (4 + Video.rcur (Video.world s))%nat) as [H4 H4'].
  pose proof (Hd (5 + Video.rcur (Video.world s))%nat) as [H5 H5'].
  pose proof (Hd (6 + Video.rcur (Video.world s))%nat) as [H6 H6'].
  unfold Video.in_canvas. revert H0 H0' H1 H1' H2 H2' H3 H3' H4 H4' H5 H5' H6 H6' Hw Hh.
  clear Hd. video_run s. cbn [Nat.add].
  intros H0 H0' H1 H1' H2 H2' H3 H3' H4 H4' H5 H5' H6 H6' Hw Hh.
  split; [|split; [|split]].
  - assert (H : 0 <= JS.floor (rnd rc * 100) < 100); [|lia].
    apply floor_bounds; [change (inject_Z 0) with 0%Q | change (inject_Z 100) with 100%Q]; nra.
  - assert (H : 70 <= Video.toFixed2 (rnd (Datatypes.S rc) * (3 # 10) + (7 # 10)) < 101);
      [|lia].
    unfold Video.toFixed2. apply floor_bounds;
      [change (inject_Z 70) with 70%Q | change (inject_Z 101) with 101%Q]; nra.
  - repeat split; nra.
  - now apply index_floor_in.
Qed.

Lemma two_frames_world_in_unit : Video.draws_in_unit Video.two_frames_world.
Proof.
  intros n. unfold Video.two_frames_world. cbn [Video.random].
  do 16 (destruct n as [|n]; [split; [unfold Qle; cbn; lia | reflexivity]|]).
  destruct n; split; cbn; first [unfold Qle; cbn; lia | reflexivity].
Qed.

Lemma video_detection_ranges_witness :
  let s := Video.initial Video.two_frames_world in
  Video.draws_in_unit (Video.world s) /\
  0 <= Video.id (eval Video.generateRandomDetection s) <= 99.
Proof.
  split; [exact two_frames_world_in_unit|].
  apply (video_detection_ranges (Video.initial Video.two_frames_world)).
  - exact two_frames_world_in_unit.
  - vm_compute. discriminate.
  - vm_compute. discriminate.
Defined.

Lemma hex_digit_range c v : Video.hex_digit c = Some v -> 0 <= v <= 15.
Proof.
  unfold Video.hex_digit. cbv zeta.
  set (n := Z.of_nat (nat_of_ascii c)).
  destruct (Z.leb_spec 48 n), (Z.leb_spec n 57), (Z.leb_spec 97 n),
           (Z.leb_spec n 102), (Z.leb_spec 65 n), (Z.leb_spec n 70);
    cbn [andb]; intros Hv; try discriminate; injection Hv as <-; lia.
Qed.

Lemma hex_pair_range a b v : Video.hex_pair a b = Some v -> 0 <= v <= 255.
Proof.
  unfold Video.hex_pair.
  destruct (Video.hex_digit a) as [h|] eqn:Ha; [|discriminate].
  destruct (Video.hex_digit b) as [l|] eqn:Hb; [|discriminate].
  intros H. injection H as <-.
  apply hex_digit_range in Ha, Hb. lia.
Qed.

Lemma hex_digit_hash : Video.hex_digit "#"%char = None.
Proof. reflexivity. Qed.

(** A first character other than [#] is not stripped. *)
Lemma keep_first_character (c : Ascii.ascii) (rest : string) :
  c <> "#"%char ->
  match String c rest with
  | String "#"%char r => r
  | _ => String c rest
  end = String c rest.
Proof.
  intros Hc.
  destruct c as [[|] [|] [|] [|] [|] [|] [|] [|]]; try reflexivity.
  now contradict Hc.
Qed.

Lemma hex_pair_digits a b h l :
  Video.hex_digit a = Some h -> Video.hex_digit b = Some l ->
  Video.hex_pair a b = Some (16 * h + l).
Proof. intros Ha Hb. unfold Video.hex_pair. now rewrite Ha, Hb. Qed.

Lemma hex_pair_fails a b :
  Video.hex_digit a = None \/ Video.hex_digit b = None -> Video.hex_pair a b = None.
Proof.
  intros [H | H]; unfold Video.hex_pair; rewrite H; [reflexivity|].
  now destruct (Video.hex_digit a).
Qed.

(** The three pairs of six characters, read as by the body of
    [hexToRgb]. *)
Lemma six_digits_parse c1 c2 c3 c4 c5 c6 d1 d2 d3 d4 d5 d6 :
  Video.hex_digit c1 = Some d1 -> Video.hex_digit c2 = Some d2 ->
  Video.hex_digit c3 = Some d3 -> Video.hex_digit c4 = Some d4 ->
  Video.hex_digit c5 = Some d5 -> Video.hex_digit c6 = Some d6 ->
  Video.hexToRgb (Video.six c1 c2 c3 c4 c5 c6) =
    (16 * d1 + d2, 16 * d3 + d4, 16 * d5 + d6) /\
  Video.hexToRgb (String "#"%char (Video.six c1 c2 c3 c4 c5 c6)) =
    (16 * d1 + d2, 16 * d3 + d4, 16 * d5 + d6).
Proof.
  intros H1 H2 H3 H4 H5 H6.
  assert (Hc : c1 <> "#"%char).
  { intros ->. rewrite hex_digit_hash in H1. discriminate. }
  unfold Video.hexToRgb, Video.six. cbv zeta. split.
  - rewrite (keep_first_character c1 _ Hc).
    now rewrite (hex_pair_digits _ _ _ _ H1 H2), (hex_pair_digits _ _ _ _ H3 H4),
      (hex_pair_digits _ _ _ _ H5 H6).
  - now rewrite (hex_pair_digits _ _ _ _ H1 H2), (hex_pair_digits _ _ _ _ H3 H4),
      (hex_pair_digits _ _ _ _ H5 H6).
Qed.

(** The body of [hexToRgb] on what is left after the optional [#]. *)
Lemma digits_fall_back (digits : string) :
  ~ (exists c1 c2 c3 c4 c5 c6,
       digits = Video.six c1 c2 c3 c4 c5 c6 /\
       Forall (fun c => is_Some (Video.hex_digit c)) [c1; c2; c3; c4; c5; c6]) ->
  match digits with
  | String c1 (String c2 (String c3 (String c4 (String c5 (String c6 EmptyString))))) =>
      match Video.hex_pair c1 c2, Video.hex_pair c3 c4, Video.hex_pair c5 c6 with
      | Some r, Some g, Some b => (r, g, b)
      | _, _, _ => (255, 255, 255)
      end
  | _ => (255, 255, 255)
  end = (255, 255, 255).
Proof.
  intros Hno.
  do 6 (destruct digits as [|? digits]; [reflexivity|]).
  destruct digits as [|? digits]; [|reflexivity].
  destruct (Video.hex_digit a) as [d1|] eqn:E1;
    [|rewrite (hex_pair_fails a a0) by auto; reflexivity].
  destruct (Video.hex_digit a0) as [d2|] eqn:E2;
    [|rewrite (hex_pair_fails a a0) by auto; reflexivity].
  destruct (Video.hex_digit a1) as [d3|] eqn:E3;
    [|rewrite (hex_pair_fails a1 a2) by auto;
      now destruct (Video.hex_pair a a0)].
  destruct (Video.hex_digit a2) as [d4|] eqn:E4;
    [|rewrite (hex_pair_fails a1 a2) by auto;
      now destruct (Video.hex_pair a a0)].
  destruct (Video.hex_digit a3) as [d5|] eqn:E5;
    [|rewrite (hex_pair_fails a3 a4) by auto;
      now destruct (Video.hex_pair a a0), (Video.hex_pair a1 a2)].
  destruct (Video.hex_digit a4) as [d6|] eqn:E6;
    [|rewrite (hex_pair_fails a3 a4) by auto;
      now destruct (Video.hex_pair a a0), (Video.hex_pair a1 a2)].
  exfalso. apply Hno. exists a, a0, a1, a2, a3, a4. split; [reflexivity|].
  repeat constructor; eauto.
Qed.

(** X19.  [hexToRgb] reads a colour exactly when the string is an
    optional [#] followed by six hexadecimal digits, in either case: the
    three components are then the values of the three pairs of digits.
    Every other string yields 255, 255, 255.  In both cases the three
    components are between 0 and 255. *)
Theorem hexToRgb_parses_or_falls_back :
  forall hex,
    (forall c1 c2 c3 c4 c5 c6 d1 d2 d3 d4 d5 d6,
       hex = Video.six c1 c2 c3 c4 c5 c6 \/
       hex = String "#"%char (Video.six c1 c2 c3 c4 c5 c6) ->
       Video.hex_digit c1 = Some d1 -> Video.hex_digit c2 = Some d2 ->
       Video.hex_digit c3 = Some d3 -> Video.hex_digit c4 = Some d4 ->
       Video.hex_digit c5 = Some d5 -> Video.hex_digit c6 = Some d6 ->
       Video.hexToRgb hex = (16 * d1 + d2, 16 * d3 + d4, 16 * d5 + d6)) /\
    (~ Video.hex_colour hex -> Video.hexToRgb hex = (255, 255, 255)) /\
    (let '(r, g, b) := Video.hexToRgb hex in
     0 <= r <= 255 /\ 0 <= g <= 255 /\ 0 <= b <= 255).
Proof.
  intros hex. split; [|split].
  - intros c1 c2 c3 c4 c5 c6 d1 d2 d3 d4 d5 d6 Hhex H1 H2 H3 H4 H5 H6.
    destruct (six_digits_parse _ _ _ _ _ _ _ _ _ _ _ _ H1 H2 H3 H4 H5 H6) as [Ha Hb].
    destruct Hhex as [-> | ->]; assumption.
  - intros Hno. unfold Video.hexToRgb. cbv zeta.
    apply digits_fall_back. intros (c1 & c2 & c3 & c4 & c5 & c6 & Hd & Hall).
    apply Hno. exists c1, c2, c3, c4, c5, c6. split; [|exact Hall].
    destruct hex as [|c rest]; [discriminate Hd|].
    destruct (Ascii.ascii_dec c "#"%char) as [-> | Hc].
    + right. now rewrite <- Hd.
    + left. now rewrite (keep_first_character c rest Hc) in Hd.
  - unfold Video.hexToRgb. cbv zeta.
    set (digits := match hex with EmptyString => _ | _ => _ end). clearbody digits.
    do 6 (destruct digits as [|? digits]; [repeat split; lia|]).
    destruct digits as [|? digits]; [|repeat split; lia].
    repeat match goal with
           | |- context [Video.hex_pair ?a ?b] =>
               let E := fresh "E" in
               destruct (Video.hex_pair a b) eqn:E;
               [apply hex_pair_range in E|]
           end; repeat split; lia.
Qed.

Lemma teal_and_a_colour_name :
  Video.hexToRgb "#00E5FF" = (0, 229, 255) /\
  ~ Video.hex_colour "teal" /\
  Video.hexToRgb "teal" = (255, 255, 255).
Proof.
  assert (Hno : ~ Video.hex_colour "teal").
  { intros (c1 & c2 & c3 & c4 & c5 & c6 & [H | H] & _); discriminate H. }
  split; [|split; [exact Hno|]].
  - apply (proj1 (hexToRgb_parses_or_falls_back "#00E5FF")
             "0"%char "0"%char "E"%char "5"%char "F"%char "F"%char 0 0 14 5 15 15);
      [right|..]; reflexivity.
  - exact (proj1 (proj2 (hexToRgb_parses_or_falls_back "teal")) Hno).
Defined.

(** X20.  With [Math.random()] in [0, 1), the drone status display
    always shows a battery level from 76 to 80 percent, in green (the
    orange and red branches are never taken), and an altitude from 140 to
    159 metres. *)
Theorem drone_status_ranges :
  forall statusItems s,
    Video.draws_in_unit (Video.world s) ->
    let st := eval (Video.updateDroneStatus statusItems) s in
    (forall level colour, Video.battery st = Some (level, colour) ->
       76 <= level <= 80 /\ colour = "#39FF14"%string) /\
    (forall metres, Video.altitude st = Some metres -> 140 <= metres <= 159).
Proof.
  intros statusItems s Hd. cbv zeta.
  assert (Hb : forall r : Q, (0 <= r)%Q -> (r < 1)%Q ->
                 76 <= 78 + JS.floor (r * 5 - 2) <= 80).
  { intros r H0 H1.
    assert (H : -2 <= JS.floor (r * 5 - 2) < 3); [|lia].
    apply floor_bounds;
      [change (inject_Z (-2)) with (-2)%Q | change (inject_Z 3) with 3%Q]; nra. }
  assert (Ha : forall r : Q, (0 <= r)%Q -> (r < 1)%Q ->
                 140 <= 150 + JS.floor (r * 20 - 10) <= 159).
  { intros r H0 H1.
    assert (H : -10 <= JS.floor (r * 20 - 10) < 10); [|lia].
    apply floor_bounds;
      [change (inject_Z (-10)) with (-10)%Q | change (inject_Z 10) with 10%Q]; nra. }
  unfold Video.updateDroneStatus, Video.draws_in_unit in *.
  destruct s as [proc overlay alerts next rem fo fd raf [rnd rc clk cc cw ch]].
  cbn [Video.world Video.random] in Hd.
  destruct (1 <? statusItems)%nat, (2 <? statusItems)%nat, (3 <? statusItems)%nat;
    lazy beta iota zeta delta
      [exec eval mbind State_bind mret State_ret fst snd
       Video.Math_random Video.Date_now Video.set_world Video.this
       Video.isProcessing Video.detectionOverlay Video.alertsContainer
       Video.nextNode Video.removals Video.fadeOuts Video.faded
     Video.rafPending Video.world
       Video.random Video.rcur Video.clock Video.ccur
       Video.canvasWidth Video.canvasHeight Video.battery Video.altitude];
    (split; [intros level colour | intros metres]); try discriminate.
  all: try match goal with
           | |- context [JS.floor (?f ?k * 5 - 2)] =>
               destruct (Hd k) as [H0 H1]; pose proof (Hb _ H0 H1) as Hr;
               set (lv := 78 + JS.floor (f k * 5 - 2)) in *;
               intros H; injection H as <- <-;
               split; [exact Hr|];
               destruct (Z.ltb_spec lv 20); [lia|];
               destruct (Z.ltb_spec lv 50); [lia|];
               reflexivity
           end.
  all: match goal with
       | |- context [JS.floor (?f ?k * 20 - 10)] =>
           destruct (Hd k) as [H0 H1]; pose proof (Ha _ H0 H1) as Hr;
           set (m := 150 + JS.floor (f k * 20 - 10)) in *;
           intros H; injection H as <-; exact Hr
       end.
Qed.

Lemma drone_status_ranges_witness :
  let s := Video.initial Video.two_frames_world in
  Video.draws_in_unit (Video.world s) /\
  (forall level colour,
     Video.battery (eval (Video.updateDroneStatus 4) s) = Some (level, colour) ->
     76 <= level <= 80 /\ colour = "#39FF14"%string).
Proof.
  split; [exact two_frames_world_in_unit|].
  exact (proj1 (drone_status_ranges 4 (Video.initial Video.two_frames_world)
                  two_frames_world_in_unit)).
Defined.

(** * Further properties: nothing generated is lost, tracking off, averages *)

#[local] Instance log_untouched_preorder : PreOrder log_untouched.
Proof.
  split.
  - intros s. split; reflexivity.
  - intros s1 s2 s3 [T12 L12] [T23 L23]. split; congruence.
Qed.







Ltac prim_same_engine :=
  let s1 := fresh "s" in let s2 := fresh "s" in
  let He := fresh "He" in let Hw := fresh "Hw" in
  intros s1 s2 [He Hw]; unfold same_engine_and_world;
  unfold exec, eval, this, update, Math_random, Date_now, with_world;
  cbn [fst snd engine world]; rewrite ?He, ?Hw; repeat split.

Lemma simulateDetections_same_engine :
  respects same_engine_and_world simulateDetections.
Proof.
  unfold simulateDetections.
  respects_split ltac:(first
    [ match goal with
      | |- respects _ (generateDetections ?n ?c) =>
          induction n; cbn [generateDetections];
          unfold generateDetection, generateBoundingBox, getTrackingId;
          respects_split ltac:(first [ assumption | prim_same_engine ])
      end
    | prim_same_engine ]).
Qed.



(** ** calculateAverageConfidence *)

(** The running sum of [reduce] over scores in [0, 1] stays between the
    initial value and the initial value plus the number of entries. *)
Lemma confidence_sum_bounds (l : list Detection) (acc : Q) :
  Forall (fun d => (0 <= confidence d)%Q /\ (confidence d <= 1)%Q) l ->
  (acc <= fold_left (fun a d => (a + confidence d)%Q) l acc)%Q /\
  (fold_left (fun a d => (a + confidence d)%Q) l acc
   <= acc + inject_Z (Z.of_nat (length l)))%Q.
Proof.
  intros Hl. revert acc. induction Hl as [|d l [H0 H1] _ IH]; intros acc.
  - cbn. split; [apply Qle_refl|]. rewrite Qplus_0_r. apply Qle_refl.
  - cbn [fold_left length]. destruct (IH (acc + confidence d)%Q) as [Ha Hb].
    rewrite Nat2Z.inj_succ. unfold Z.succ. rewrite inject_Z_plus.
    change (inject_Z 1) with 1%Q. split.
    + eapply Qle_trans; [|exact Ha]. lra.
    + eapply Qle_trans; [exact Hb|]. lra.
Qed.

(** X22.  When every score of the history is in [0, 1], the average that
    [calculateAverageConfidence] prints is between 0.0 and 100.0 percent;
    for an empty history it is 0, with no division. *)
Theorem average_confidence_is_a_percentage :
  forall e,
    Forall (fun d => (0 <= confidence d)%Q /\ (confidence d <= 1)%Q)
           (detectionHistory e) ->
    0 <= calculateAverageConfidence e <= 1000 /\
    (detectionHistory e = [] -> calculateAverageConfidence e = 0).
Proof.
  intros e Hl. unfold calculateAverageConfidence.
  destruct (detectionHistory e) as [|d l] eqn:Hh; [split; [lia | reflexivity]|].
  split; [|discriminate].
  destruct (confidence_sum_bounds (d :: l) 0%Q Hl) as [Ha Hb].
  set (sum := fold_left _ (d :: l) 0%Q) in *.
  set (n := inject_Z (Z.of_nat (length (d :: l)))) in *.
  assert (Hn : (1 <= n)%Q).
  { unfold n. change 1%Q with (inject_Z 1). rewrite <- Zle_Qle.
    cbn [length]. lia. }
  assert (Hq0 : (0 <= sum / n)%Q).
  { apply Qle_shift_div_l; lra. }
  assert (Hq1 : (sum / n <= 1)%Q).
  { apply Qle_shift_div_r; lra. }
  unfold toFixed1.
  assert (H : 0 <= JS.floor (sum / n * 100 * 10 + (1 # 2)) < 1001).
  { apply floor_bounds.
    - change (inject_Z 0) with 0%Q. lra.
    - change (inject_Z 1001) with (1001 # 1)%Q. lra. }
  lia.
Qed.

Lemma average_confidence_after_one_frame :
  Forall (fun d => (0 <= confidence d)%Q /\ (confidence d <= 1)%Q)
         (detectionHistory (engine (exec processFrame steady_tracking))) /\
  0 <= calculateAverageConfidence (engine (exec processFrame steady_tracking))
    <= 1000.
Proof.
  assert (H : Forall (fun d => (0 <= confidence d)%Q /\ (confidence d <= 1)%Q)
         (detectionHistory (engine (exec processFrame steady_tracking)))).
  { vm_compute. repeat constructor; discriminate. }
  split; [exact H|].
  exact (proj1 (average_confidence_is_a_percentage _ H)).
Defined.

(** * Reproducibility of the track set *)

#[local] Instance engine_untouched_preorder : PreOrder engine_untouched.
Proof.
  split; unfold engine_untouched; [intros s | intros s1 s2 s3]; congruence.
Qed.

Ltac prim_engine_untouched :=
  let s := fresh "s" in
  intros s; unfold engine_untouched; run_m; reflexivity.

(** What follows [storeDetection] in [handleDetection] only reads the
    engine. *)
Lemma after_store_engine_untouched d :
  steps engine_untouched
    (_ ← updateDetectionDisplay d; _ ← logDetectionEvent d; checkAlerts d).
Proof.
  unfold updateDetectionDisplay, logDetectionEvent, checkAlerts, triggerAlert.
  steps_split ltac:(first [ prim_engine_untouched ]).
Qed.

(** A detection that carries an identifier other than 0 is stored under
    the key made of its class and that identifier; the clock only
    supplies the timestamp of the history copy. *)
Lemma handleDetection_engine d i s :
  id d = Some i -> i <> 0 ->
  exists t,
    engine (exec (handleDetection d) s) =
    let e := engine s in
    let h := detectionHistory e ++ [set_timestamp (IsoString t) d] in
    mkEngine (isActive e) (trackingEnabled e) (currentModel e) (threshold e)
             (<[class d +:+ "_" +:+ JS.toString i := d]> (detectedObjects e))
             (trackingId e)
             (if 100 <? Z.of_nat (length h) then tail h else h).
Proof.
  intros Hid Hi. exists (clock (world s) (ccur (world s))).
  unfold handleDetection. rewrite exec_bind.
  rewrite (after_store_engine_untouched d (exec (storeDetection d) s)).
  unfold storeDetection, storeKey. rewrite Hid.
  destruct (Z.eqb_spec i 0) as [|_]; [contradiction|].
  run_m. unfold set_detectionHistory, set_detectedObjects. cbn.
  match goal with |- context [if ?c then _ else _] => destruct c end; reflexivity.
Qed.

Lemma map_tail {A B} (f : A -> B) (l : list A) : map f (tail l) = tail (map f l).
Proof. now destruct l. Qed.

Lemma handleDetection_same_tracks d i s1 s2 :
  id d = Some i -> i <> 0 ->
  same_tracks (engine s1) (engine s2) ->
  same_tracks (engine (exec (handleDetection d) s1))
              (engine (exec (handleDetection d) s2)).
Proof.
  intros Hid Hi (Ha & Hen & Hm & Hthr & Hobj & Htid & Hh).
  destruct (handleDetection_engine d i s1 Hid Hi) as [t1 ->].
  destruct (handleDetection_engine d i s2 Hid Hi) as [t2 ->].
  cbv zeta. unfold same_tracks.
  cbn [isActive trackingEnabled currentModel threshold detectedObjects
       trackingId detectionHistory].
  repeat split; try congruence.
  assert (Hlen : length (detectionHistory (engine s1)) =
                 length (detectionHistory (engine s2))).
  { rewrite <- (length_map untimed (detectionHistory (engine s1))), Hh.
    apply length_map. }
  rewrite !length_app, Hlen.
  assert (Happ : map untimed (detectionHistory (engine s1) ++
                              [set_timestamp (IsoString t1) d]) =
                 map untimed (detectionHistory (engine s2) ++
                              [set_timestamp (IsoString t2) d])).
  { rewrite !map_app, Hh. reflexivity. }
  destruct (100 <? _); [|exact Happ].
  rewrite !map_tail. f_equal. exact Happ.
Qed.

(** The loop of [processFrame] over detections that all carry an
    identifier other than 0. *)
Lemma forEach_same_tracks ds : forall s1 s2,
  Forall (fun d => exists i, id d = Some i /\ i <> 0) ds ->
  same_tracks (engine s1) (engine s2) ->
  let body := fun detection : Detection =>
                e ← this;
                if JS.ge (confidence detection) (threshold e)
                then handleDetection detection
                else mret tt in
  same_tracks (engine (exec (forEach ds body) s1))
              (engine (exec (forEach ds body) s2)).
Proof.
  induction ds as [|d ds IH]; intros s1 s2 Hall Hs body; [exact Hs|].
  inversion Hall as [|? ? (i & Hid & Hi) Hall']; subst.
  cbn [forEach]. rewrite !exec_bind. apply IH; [exact Hall'|].
  unfold body. rewrite !exec_bind.
  change (eval this ?s) with (engine s). change (exec this ?s) with s.
  assert (Hthr : threshold (engine s1) = threshold (engine s2)) by apply Hs.
  rewrite Hthr.
  destruct (JS.ge (confidence d) (threshold (engine s2))); [|exact Hs].
  now apply (handleDetection_same_tracks d i).
Qed.

(** The counter after [generateDetections]: one step per detection when
    tracking is on, none otherwise. *)
Lemma generateDetections_counter_after n cfg : forall s,
  length (eval (generateDetections n cfg) s) = n /\
  trackingId (engine (exec (generateDetections n cfg) s)) =
    if trackingEnabled (engine s)
    then Nat.iter n JS.incr (trackingId (engine s))
    else trackingId (engine s).
Proof.
  induction n as [|n IH]; intros s; cbn [generateDetections].
  - split; [reflexivity|]. cbn. now destruct (trackingEnabled (engine s)).
  - rewrite exec_bind, eval_bind, exec_bind, eval_bind.
    destruct (generateDetection_id cfg s) as (_ & Htid & Hen).
    set (s1 := exec (generateDetection cfg) s) in *.
    destruct (IH s1) as [Hlen Hc].
    change (exec (mret ?l) ?t) with t. change (eval (mret ?l) ?t) with l.
    split; [cbn [length]; now rewrite Hlen|].
    rewrite Hc, Hen, Htid.
    destruct (trackingEnabled (engine s)); [|reflexivity].
    rewrite Nat.iter_succ_r. reflexivity.
Qed.

Lemma simulateDetections_counter_after s :
  trackingId (engine (exec simulateDetections s)) =
    if trackingEnabled (engine s)
    then Nat.iter (length (eval simulateDetections s)) JS.incr (trackingId (engine s))
    else trackingId (engine s).
Proof.
  unfold simulateDetections.
  rewrite !exec_bind, !eval_bind.
  change (eval this s) with (engine s). change (exec this s) with s.
  set (s1 := exec Math_random s).
  assert (Hs1 : engine s1 = engine s) by reflexivity.
  destruct (JS.gt (eval Math_random s) (8 # 10)).
  - rewrite !exec_bind, !eval_bind.
    set (s2 := exec Math_random s1).
    assert (Hs2 : engine s2 = engine s) by reflexivity.
    destruct (getModelConfig (currentModel (engine s))) as [config| |].
    + destruct (generateDetections_counter_after
                  (Z.to_nat (JS.floor (eval Math_random s1 *
                                       inject_Z (maxDetections config)) + 1))
                  config s2) as [Hlen Hc].
      rewrite Hc, Hlen, Hs2. reflexivity.
    + cbn. now destruct (trackingEnabled (engine s)).
    + cbn. now destruct (trackingEnabled (engine s)).
  - cbn. now destruct (trackingEnabled (engine s)).
Qed.

(** With tracking on and the counter at 1 or more, every generated
    detection carries an identifier other than 0. *)
Lemma simulateDetections_ids_nonzero s :
  trackingEnabled (engine s) = true -> 1 <= trackingId (engine s) ->
  Forall (fun d => exists i, id d = Some i /\ i <> 0) (eval simulateDetections s).
Proof.
  intros Hen Hge.
  destruct (simulateDetections_ids s) as (_ & _ & Hsome & _).
  specialize (Hsome Hen).
  pose proof (simulateDetections_id_bounds s) as Hb.
  rewrite Forall_forall in Hsome, Hb. apply Forall_forall. intros d Hd.
  destruct (Hsome d Hd) as [i Hi]. exists i. split; [exact Hi|].
  specialize (Hb d Hd i Hi). lia.
Qed.

(** C4, as amended.  With tracking on (and the counter at 1 or more, as
    it is in every state the engine can reach), the frame step is
    reproducible from the detections: two runs from the same engine state
    that generate the same detections end with the same map of detected
    objects, the same identifier counter, the same flags, model and
    threshold, and histories that differ at most in their timestamps,
    whatever else the clocks and [Math.random()] of the two pages
    answer. *)
Theorem C4_same_detections_same_tracks_when_tracking :
  forall s1 s2,
    engine s1 = engine s2 ->
    trackingEnabled (engine s1) = true ->
    1 <= trackingId (engine s1) ->
    eval simulateDetections s1 = eval simulateDetections s2 ->
    same_tracks (engine (exec processFrame s1)) (engine (exec processFrame s2)).
Proof.
  intros s1 s2 He Hen Hge Hds.
  assert (Hall := simulateDetections_ids_nonzero s1 Hen Hge).
  unfold processFrame. rewrite !exec_bind.
  set (t1 := exec count_frame s1). set (t2 := exec count_frame s2).
  assert (H1 : eval simulateDetections t1 = eval simulateDetections s1).
  { apply (simulateDetections_same_engine t1 s1). split; reflexivity. }
  assert (H2 : eval simulateDetections t2 = eval simulateDetections s2).
  { apply (simulateDetections_same_engine t2 s2). split; reflexivity. }
  rewrite H1, H2, <- Hds.
  set (u1 := exec simulateDetections t1). set (u2 := exec simulateDetections t2).
  assert (Hu : same_tracks (engine u1) (engine u2)).
  { destruct (simulateDetections_same_but_ids t1) as (A1&B1&C1&D1&E1&F1&_).
    destruct (simulateDetections_same_but_ids t2) as (A2&B2&C2&D2&E2&F2&_).
    fold u1 in A1, B1, C1, D1, E1, F1. fold u2 in A2, B2, C2, D2, E2, F2.
    change (engine t1) with (engine s1) in *.
    change (engine t2) with (engine s2) in *.
    unfold same_tracks. rewrite A1, A2, B1, B2, C1, C2, D1, D2, E1, E2, F1, F2, He.
    repeat split.
    unfold u1, u2. rewrite !simulateDetections_counter_after.
    change (engine t1) with (engine s1). change (engine t2) with (engine s2).
    rewrite H1, H2, <- Hds, He. reflexivity. }
  pose proof (forEach_same_tracks (eval simulateDetections s1) u1 u2 Hall Hu) as Hf.
  cbv zeta in Hf.
  match goal with
  | |- same_tracks (engine (exec updatePerformanceMetrics ?a))
                   (engine (exec updatePerformanceMetrics ?b)) =>
      change (engine (exec updatePerformanceMetrics a)) with (engine a);
      change (engine (exec updatePerformanceMetrics b)) with (engine b)
  end.
  exact Hf.
Qed.

Lemma C4_witness_two_clocks :
  let s1 := steady_tracking in
  let s2 := with_world late_clock_world steady_tracking in
  engine s1 = engine s2 /\
  eval simulateDetections s1 = eval simulateDetections s2 /\
  same_tracks (engine (exec processFrame s1)) (engine (exec processFrame s2)).
Proof.
  assert (Hds : eval simulateDetections steady_tracking =
                eval simulateDetections (with_world late_clock_world steady_tracking))
    by (vm_compute; reflexivity).
  split; [reflexivity|]. split; [exact Hds|].
  apply (C4_same_detections_same_tracks_when_tracking
           steady_tracking (with_world late_clock_world steady_tracking)).
  - reflexivity.
  - reflexivity.
  - vm_compute. discriminate.
  - exact Hds.
Defined.

(** C4 fails as stated: with tracking off, two runs from the same engine
    state and threshold that generate the same detection (a person, at
    the same place, with the same score and the same timestamp 1000) end
    with different maps of detected objects, because the key of a
    detection without identifier is made from [Date.now()]: 'person_1001'
    on one page and 'person_5001' on the other. *)
Lemma C4_same_detections_different_tracks :
  let s1 := initial steady_world in
  let s2 := initial late_clock_world in
  engine s1 = engine s2 /\
  threshold (engine s1) = threshold (engine s2) /\
  eval simulateDetections s1 = eval simulateDetections s2 /\
  eval simulateDetections s1 <> [] /\
  detectedObjects (engine (exec processFrame s1)) <>
  detectedObjects (engine (exec processFrame s2)).
Proof.
  split; [reflexivity|]. split; [reflexivity|].
  split; [vm_compute; reflexivity|]. split; [vm_compute; discriminate|].
  intros H. apply (f_equal (fun m => m !! "person_1001"%string)) in H.
  vm_compute in H. discriminate.
Qed.
